(** * The HTTP details pane: panel composition and view interaction

  A shallow embedding of [src/components/view/http/http-details-pane.tsx]:
  the friendly API name, the card list built by [render] and its helpers,
  and the three bound actions [toggleCollapse], [toggleExpand] and
  [ignoreError].

  JavaScript strings are sequences of UTF-16 code units; [length],
  [slice], [includes], [startsWith] and [split] all count code units, so a
  string is modelled as a list of code units. *)

From Stdlib Require Import String Ascii.
From Stdlib Require Import List NArith Bool Arith Lia Permutation.
Import ListNotations.

Set Implicit Arguments.

(* ================================================================== *)
(** ** JavaScript strings and the primitives the pane uses             *)
(* ================================================================== *)

Module Js.

Definition str := list N.

(** A literal of the source, all of whose characters are ASCII. *)
Definition lit (s : string) : str :=
  List.map N_of_ascii (list_ascii_of_string s).
Arguments lit s%_string.

Fixpoint eqb (a b : str) : bool :=
  match a, b with
  | [], [] => true
  | x :: a', y :: b' => N.eqb x y && eqb a' b'
  | _, _ => false
  end.

(** [s.includes(c)] for a one-character needle. *)
Definition includes (s : str) (c : N) : bool := existsb (N.eqb c) s.

(** [s.startsWith(p)] *)
Fixpoint startsWith (s p : str) {struct p} : bool :=
  match p, s with
  | [], _ => true
  | y :: p', x :: s' => N.eqb x y && startsWith s' p'
  | _ :: _, [] => false
  end.

(** [s.slice(0, n)] for [0 <= n]. *)
Definition slice0 (n : nat) (s : str) : str := firstn n s.

(** WhiteSpace and LineTerminator code units of ECMAScript, the ones
    [trim], [trimLeft] and [trimRight] strip. *)
Definition isWhiteSpace (c : N) : bool :=
  ((9 <=? c) && (c <=? 13) || (c =? 32) || (c =? 160) || (c =? 5760)
   || (8192 <=? c) && (c <=? 8202) || (c =? 8232) || (c =? 8233)
   || (c =? 8239) || (c =? 8287) || (c =? 12288) || (c =? 65279))%N.

(** [s.trimRight()] *)
Fixpoint trimRight (s : str) : str :=
  match s with
  | [] => []
  | c :: s' =>
      match trimRight s' with
      | [] => if isWhiteSpace c then [] else [c]
      | t => c :: t
      end
  end.

(** [s.split(sep)] for a one-character separator: the pieces between
    the separators, in order; never the empty array. *)
Fixpoint splitFrom (sep : N) (piece : str) (s : str) : list str :=
  match s with
  | [] => [rev piece]
  | c :: s' =>
      if N.eqb c sep then rev piece :: splitFrom sep [] s'
      else splitFrom sep (c :: piece) s'
  end.

Definition split (s : str) (sep : N) : list str := splitFrom sep [] s.

(** [a[i]]: [undefined] out of range. *)
Definition index {A} (a : list A) (i : nat) : option A := nth_error a i.

(** Truthiness of a value that is an object or [undefined]. *)
Definition defined {A} (x : option A) : bool :=
  match x with Some _ => true | None => false end.

(** Truthiness of a string: every string but the empty one. *)
Definition truthy (s : str) : bool :=
  match s with [] => false | _ :: _ => true end.

Definition space : N := 32.
Definition slash : N := 47.
Definition colon : N := 58.
(** U+2026 HORIZONTAL ELLIPSIS, one code unit. *)
Definition ellipsis : N := 8230.

(** The property names every ordinary object inherits from
    [Object.prototype]; reading one of them on an object that has no own
    property of that name gives the inherited value, not [undefined]. *)
Definition objectPrototypeProperties : list str :=
  [lit "constructor"; lit "hasOwnProperty"; lit "isPrototypeOf";
   lit "propertyIsEnumerable"; lit "toLocaleString"; lit "toString";
   lit "valueOf"; lit "__proto__"; lit "__defineGetter__";
   lit "__defineSetter__"; lit "__lookupGetter__"; lit "__lookupSetter__"].

Definition inheritedProperty (name : str) : bool :=
  existsb (eqb name) objectPrototypeProperties.

(** What a call can do besides returning: throw. *)
Inductive error := TypeError (reading : str).

Inductive outcome (A : Type) :=
| Returned (a : A)
| Thrown (e : error).
Arguments Thrown {A} e.

(** A computation that may report to the error collector
    ([reportError] of [errors.ts]) and may throw. The reports made
    before a throw stay made. *)
Definition M (A : Type) : Type := list str * outcome A.

Definition ret {A} (a : A) : M A := ([], Returned a).
Definition throw {A} (e : error) : M A := ([], Thrown e).
Definition reportError (msg : str) : M unit := ([msg], Returned tt).

Definition bind {A B} (m : M A) (f : A -> M B) : M B :=
  match m with
  | (log, Returned a) => let (log', r) := f a in (log ++ log', r)
  | (log, Thrown e) => (log, Thrown e)
  end.

End Js.

Notation "x <- m ;; k" := (Js.bind m (fun x => k))
(at level 61, m at next level, right associativity).

(* ================================================================== *)
(** ** [makeFriendlyApiName]                                           *)
(* ================================================================== *)

Section FriendlyName.

(** [_.startCase] of lodash. *)
Variable startCase : Js.str -> Js.str.

Definition makeFriendlyApiName (rawName : Js.str) : Js.str :=
  (* Some API names are camelCase: make *only* those more readable *)
  let cleanedName :=
    if negb (Js.includes rawName Js.space) && (6 <? length rawName)
    then startCase rawName
    else rawName in
  (* Trim down any REALLY long names *)
  if 75 <? length cleanedName
  then Js.trimRight (Js.slice0 72 cleanedName) ++ [Js.ellipsis]
  else cleanedName.

End FriendlyName.

(* ================================================================== *)
(** ** Card keys                                                       *)
(* ================================================================== *)

Module CardKey.

(** [type CardKey = typeof cardKeys[number]] *)
Inductive t :=
| api | request | requestBody | response | responseBody
| webSocketMessages | webSocketClose | performance | export.

Definition cardKeys : list t :=
  [api; request; requestBody; response; responseBody;
   webSocketMessages; webSocketClose; performance; export].

(** The string each key is at run time. *)
Definition name (k : t) : Js.str :=
  match k with
  | api => Js.lit "api"
  | request => Js.lit "request"
  | requestBody => Js.lit "requestBody"
  | response => Js.lit "response"
  | responseBody => Js.lit "responseBody"
  | webSocketMessages => Js.lit "webSocketMessages"
  | webSocketClose => Js.lit "webSocketClose"
  | performance => Js.lit "performance"
  | export => Js.lit "export"
  end.

Definition eq_dec (a b : t) : {a = b} + {a <> b}.
Proof. decide equality. Defined.

Definition eqb (a b : t) : bool := if eq_dec a b then true else false.

(** The key a run-time string is, if it is one ([key as CardKey] checks
    nothing). *)
Definition ofName (s : Js.str) : option t :=
  find (fun k => Js.eqb (name k) s) cardKeys.

End CardKey.

Module Expandable.

(** ['requestBody' | 'responseBody' | 'webSocketMessages'], the type of
    the first parameter of [renderExpandedCard], which receives
    [uiStore.expandedCard]. *)
Inductive t := requestBody | responseBody | webSocketMessages.

Definition key (e : t) : CardKey.t :=
  match e with
  | requestBody => CardKey.requestBody
  | responseBody => CardKey.responseBody
  | webSocketMessages => CardKey.webSocketMessages
  end.

Definition eqb (a b : t) : bool :=
  match a, b with
  | requestBody, requestBody
  | responseBody, responseBody
  | webSocketMessages, webSocketMessages => true
  | _, _ => false
  end.

(** [key === 'requestBody' || key === 'responseBody' ||
     key === 'webSocketMessages'] *)
Definition ofKey (k : CardKey.t) : option t :=
  match k with
  | CardKey.requestBody => Some requestBody
  | CardKey.responseBody => Some responseBody
  | CardKey.webSocketMessages => Some webSocketMessages
  | _ => None
  end.

End Expandable.

(* ================================================================== *)
(** ** The stores and the exchange the pane reads                      *)
(* ================================================================== *)

Module UiStore.

Record CardState := { collapsed : bool }.

(** Modelled from the spec: [UiStore] (model/ui-store) is not among the
    sources; its [viewCardStates] is the mapping from each card key to
    that card's state, with one entry per key and no other, and its
    [expandedCard] is an optional expandable key. The mapping is an
    ordinary object: under a name that is no card key it has what every
    object inherits ([Js.objectPrototypeProperties]) and nothing else. *)
Record t := {
  expandedCard : option Expandable.t;
  viewCardStates : CardKey.t -> CardState
}.

(** [viewCardStates[key]] for a run-time string, when the value is a
    card state: none under a name that is no card key. *)
Definition getCardState (ui : t) (key : Js.str) : option CardState :=
  option_map (viewCardStates ui) (CardKey.ofName key).

Definition setCollapsed (k : CardKey.t) (b : bool) (ui : t) : t :=
  {| expandedCard := expandedCard ui;
     viewCardStates := fun k' =>
       if CardKey.eqb k' k then {| collapsed := b |}
       else viewCardStates ui k' |}.

Definition setExpandedCard (e : option Expandable.t) (ui : t) : t :=
  {| expandedCard := e; viewCardStates := viewCardStates ui |}.

(** [uiStore.expandedCard === key] *)
Definition expandedIs (ui : t) (k : CardKey.t) : bool :=
  match expandedCard ui with
  | Some e => CardKey.eqb (Expandable.key e) k
  | None => false
  end.

End UiStore.

Module HttpExchange.

(** A pending breakpoint; of its draft only the decoded body is kept. *)
Record Breakpoint := { inProgressBody : Js.str }.

(** [exchange.response]: [undefined], ['aborted'] or a response. *)
Inductive Response :=
| NoResponse
| aborted
| Completed (statusCode : N).

Record ApiExchange := {
  serviceName : Js.str;
  (** whether [matchedOperation()] returns an operation *)
  matchedOperation : bool
}.

Record CloseState := { closeCode : N }.

(** The facts of an exchange the pane reads. The predicates are methods
    of [HttpExchange] (not among the sources); what each returns is a
    fact of the exchange. *)
Record t := {
  id : Js.str;
  requestUrl : Js.str;
  response : Response;
  requestBreakpoint : option Breakpoint;
  responseBreakpoint : option Breakpoint;
  tags : list Js.str;
  api : option ApiExchange;
  closeState : option CloseState;
  hasRequestBody : bool;
  hasResponseBody : bool;
  isWebSocket : bool;
  wasAccepted : bool;
  isSuccessfulExchange : bool
}.

Definition setTags (ts : list Js.str) (e : t) : t :=
  {| id := id e; requestUrl := requestUrl e; response := response e;
     requestBreakpoint := requestBreakpoint e;
     responseBreakpoint := responseBreakpoint e;
     tags := ts; api := api e; closeState := closeState e;
     hasRequestBody := hasRequestBody e;
     hasResponseBody := hasResponseBody e;
     isWebSocket := isWebSocket e; wasAccepted := wasAccepted e;
     isSuccessfulExchange := isSuccessfulExchange e |}.

End HttpExchange.

(* ================================================================== *)
(** ** What [render] produces                                          *)
(* ================================================================== *)

(** The bound methods handed to the cards. *)
Inductive Callback :=
| ToggleCollapse (key : Js.str)
| ToggleExpand (key : CardKey.t).

Record CardBaseProps := {
  key : Js.str;
  expanded : bool;
  collapsed : bool;
  onCollapseToggled : Callback
}.

Inductive Direction := left | right.

(** [requestBodyParams()] and [responseBodyParams()] *)
Record BodyParams := {
  base : CardBaseProps;
  title : Js.str;
  direction : Direction;
  onExpandToggled : Callback
}.

Inductive Element :=
| HttpApiPlaceholderCard (props : CardBaseProps) (apiName : Js.str)
| HttpApiCard (props : CardBaseProps) (apiName : Js.str)
    (apiExchange : option HttpExchange.ApiExchange)
| HttpRequestCard (props : CardBaseProps) (exchange : HttpExchange.t)
| HttpBreakpointRequestCard (props : CardBaseProps)
    (exchange : HttpExchange.t)
| HttpBodyCard (params : BodyParams) (isPaidUser : bool)
    (apiExchange : option HttpExchange.ApiExchange)
| HttpBreakpointBodyCard (params : BodyParams) (body : Js.str)
(** the [CollapsibleCard] with the Aborted pill and the one-sentence notice *)
| AbortedResponseCard (props : CardBaseProps) (direction : Direction)
| HttpResponseCard (props : CardBaseProps) (statusCode : N)
    (apiExchange : option HttpExchange.ApiExchange)
| HttpBreakpointResponseCard (props : CardBaseProps)
    (exchange : HttpExchange.t)
| StreamMessageListCard (props : CardBaseProps) (onExpandToggled : Callback)
    (isPaidUser : bool) (filenamePrefix : Js.str)
| WebSocketCloseCard (props : CardBaseProps) (closeState : HttpExchange.CloseState)
| CardDivider
| HttpPerformanceCard (props : CardBaseProps) (exchange : HttpExchange.t)
| HttpExportCard (props : CardBaseProps) (exchange : HttpExchange.t).

(** The props every card is given; the divider has none. *)
Definition baseProps (el : Element) : option CardBaseProps :=
  match el with
  | HttpApiPlaceholderCard p _ | HttpApiCard p _ _ | HttpRequestCard p _
  | HttpBreakpointRequestCard p _ | AbortedResponseCard p _
  | HttpResponseCard p _ _ | HttpBreakpointResponseCard p _
  | StreamMessageListCard p _ _ _ | WebSocketCloseCard p _
  | HttpPerformanceCard p _ | HttpExportCard p _ => Some p
  | HttpBodyCard b _ _ | HttpBreakpointBodyCard b _ => Some (base b)
  | CardDivider => None
  end.

(** Which panel an element is: the card key its collapse toggle is bound
    to (the React key of the message list is suffixed with the exchange
    id), and ['divider'] for the divider. *)
Definition panelName (el : Element) : Js.str :=
  match baseProps el with
  | Some p =>
      match onCollapseToggled p with
      | ToggleCollapse k => k
      | ToggleExpand k => CardKey.name k
      end
  | None => Js.lit "divider"
  end.

(** The children React mounts: [null] renders nothing. *)
Fixpoint mounted (cards : list (option Element)) : list Element :=
  match cards with
  | [] => []
  | Some el :: rest => el :: mounted rest
  | None :: rest => mounted rest
  end.

(** [cards.push(x)] *)
Definition push {A} (cards : list A) (x : A) : list A := cards ++ [x].

(* ================================================================== *)
(** ** The component                                                   *)
(* ================================================================== *)

(** The callback [toggleExpand] hands to [requestAnimationFrame]:
    [action(() => { this.expandCompleted = true; })]. *)
Inductive FrameCallback := CompleteExpand.

(** The props and stores the component reads, its one observable field,
    and the animation-frame callbacks that were requested and have not
    run yet, oldest first. *)
Record Pane := {
  exchange : HttpExchange.t;
  uiStore : UiStore.t;
  isPaidUser : bool;
  expandCompleted : bool;
  animationFrames : list FrameCallback
}.

Definition withUiStore (ui : UiStore.t) (p : Pane) : Pane :=
  {| exchange := exchange p; uiStore := ui; isPaidUser := isPaidUser p;
     expandCompleted := expandCompleted p;
     animationFrames := animationFrames p |}.

Definition withExchange (e : HttpExchange.t) (p : Pane) : Pane :=
  {| exchange := e; uiStore := uiStore p; isPaidUser := isPaidUser p;
     expandCompleted := expandCompleted p;
     animationFrames := animationFrames p |}.

Definition withExpandCompleted (b : bool) (p : Pane) : Pane :=
  {| exchange := exchange p; uiStore := uiStore p;
     isPaidUser := isPaidUser p; expandCompleted := b;
     animationFrames := animationFrames p |}.

(** [this.props.exchange], where a parameter is called [exchange] too. *)
Definition props_exchange (p : Pane) : HttpExchange.t := exchange p.

(** [requestAnimationFrame(cb)] *)
Definition requestAnimationFrame (cb : FrameCallback) (p : Pane) : Pane :=
  {| exchange := exchange p; uiStore := uiStore p;
     isPaidUser := isPaidUser p; expandCompleted := expandCompleted p;
     animationFrames := animationFrames p ++ [cb] |}.

(** [get cardProps()], at one key. *)
Definition cardProps (p : Pane) (k : CardKey.t) : CardBaseProps :=
  {| key := CardKey.name k;
     expanded := UiStore.expandedIs (uiStore p) k;
     collapsed :=
       UiStore.collapsed (UiStore.viewCardStates (uiStore p) k)
       && negb (Js.defined (UiStore.expandedCard (uiStore p)));
     onCollapseToggled := ToggleCollapse (CardKey.name k) |}.

Definition withExpandedProp (b : bool) (c : CardBaseProps) : CardBaseProps :=
  {| key := key c; expanded := b; collapsed := collapsed c;
     onCollapseToggled := onCollapseToggled c |}.

Definition withKey (k : Js.str) (c : CardBaseProps) : CardBaseProps :=
  {| key := k; expanded := expanded c; collapsed := collapsed c;
     onCollapseToggled := onCollapseToggled c |}.

(** The common request body params, for both normal & breakpointed bodies *)
Definition requestBodyParams (p : Pane) : BodyParams :=
  {| base := withExpandedProp
               (UiStore.expandedIs (uiStore p) CardKey.requestBody)
               (cardProps p CardKey.requestBody);
     title := Js.lit "Request Body";
     direction := right;
     onExpandToggled := ToggleExpand CardKey.requestBody |}.

(** The common response body params, for both normal & breakpointed bodies *)
Definition responseBodyParams (p : Pane) : BodyParams :=
  {| base := withExpandedProp
               (UiStore.expandedIs (uiStore p) CardKey.responseBody)
               (cardProps p CardKey.responseBody);
     title := Js.lit "Response Body";
     direction := left;
     onExpandToggled := ToggleExpand CardKey.responseBody |}.

Definition renderApiCard (p : Pane) (apiName : option Js.str)
    (apiExchange : option HttpExchange.ApiExchange) : option Element :=
  match apiName with
  | None | Some [] => None                         (* if (!apiName) *)
  | Some apiName =>
      if negb (isPaidUser p) then
        (* not paid, but a recognized operation: a placeholder *)
        Some (HttpApiPlaceholderCard (cardProps p CardKey.api) apiName)
      else
        Some (HttpApiCard (cardProps p CardKey.api) apiName apiExchange)
  end.

Definition renderRequestBody (p : Pane) (exchange : HttpExchange.t)
    (apiExchange : option HttpExchange.ApiExchange) : Element :=
  match HttpExchange.requestBreakpoint exchange with
  | Some requestBreakpoint =>
      HttpBreakpointBodyCard (requestBodyParams p)
        (HttpExchange.inProgressBody requestBreakpoint)
  | None =>
      HttpBodyCard (requestBodyParams p) (isPaidUser p) apiExchange
  end.

Definition renderResponseBody (p : Pane) (exchange : HttpExchange.t)
    (apiExchange : option HttpExchange.ApiExchange) : Element :=
  match HttpExchange.responseBreakpoint exchange with
  | Some responseBreakpoint =>
      HttpBreakpointBodyCard (responseBodyParams p)
        (HttpExchange.inProgressBody responseBreakpoint)
  | None =>
      HttpBodyCard (responseBodyParams p) (isPaidUser p) apiExchange
  end.

(** [`${x}`] of a value that may be [undefined]. *)
Definition template (x : option Js.str) : Js.str :=
  match x with Some s => s | None => Js.lit "undefined" end.

Definition renderWebSocketMessages (p : Pane) (exchange : HttpExchange.t)
    : Js.M Element :=
  let urlParts := Js.split (HttpExchange.requestUrl exchange) Js.slash in
  match Js.index urlParts 2 with
  | None => Js.throw (Js.TypeError (Js.lit "split"))  (* undefined.split *)
  | Some part =>
      let domain := Js.index (Js.split part Js.colon) 0 in
      let baseName :=
        if 2 <=? length urlParts
        then Js.index urlParts (length urlParts - 1)
        else None in
      let filenamePrefix :=
        template domain
        ++ match baseName with
           | Some b => if Js.truthy b then Js.lit "- " ++ b else []
           | None => []
           end
        ++ Js.lit " - websocket" in
      Js.ret
        (StreamMessageListCard
           (withExpandedProp
              (UiStore.expandedIs (uiStore p) CardKey.webSocketMessages)
              (withKey
                 (key (cardProps p CardKey.webSocketMessages)
                  ++ Js.lit "-" ++ HttpExchange.id (props_exchange p))
                 (cardProps p CardKey.webSocketMessages)))
           (ToggleExpand CardKey.webSocketMessages)
           (isPaidUser p)
           filenamePrefix)
  end.

Definition renderExpandedCard (p : Pane) (expandedCard : Expandable.t)
    (exchange : HttpExchange.t)
    (apiExchange : option HttpExchange.ApiExchange)
    : Js.M (option Element) :=
  if Expandable.eqb expandedCard Expandable.requestBody then
    Js.ret (Some (renderRequestBody p exchange apiExchange))
  else if Expandable.eqb expandedCard Expandable.responseBody
          && (HttpExchange.isSuccessfulExchange exchange
              || Js.defined (HttpExchange.responseBreakpoint exchange))
  then
    Js.ret (Some (renderResponseBody p exchange apiExchange))
  else if Expandable.eqb expandedCard Expandable.webSocketMessages
          && HttpExchange.isWebSocket exchange
          && HttpExchange.wasAccepted exchange
  then
    card <- renderWebSocketMessages p exchange ;; Js.ret (Some card)
  else
    _ <- Js.reportError
           (Js.lit "Expanded "
            ++ CardKey.name (Expandable.key expandedCard)
            ++ Js.lit ", but can't show anything") ;;
    (* Shouldn't ever happen, unless we get into a funky broken state *)
    Js.ret None.

Definition renderBreakpointCards (p : Pane) (exchange : HttpExchange.t)
    (apiName : option Js.str)
    (apiExchange : option HttpExchange.ApiExchange)
    : Js.M (list (option Element)) :=
  let cards : list (option Element) := [] in
  match HttpExchange.requestBreakpoint exchange with
  | Some requestBreakpoint =>
      let cards :=
        push cards
          (Some (HttpBreakpointRequestCard (cardProps p CardKey.request)
                   exchange)) in
      let cards :=
        push cards (Some (renderRequestBody p exchange apiExchange)) in
      Js.ret cards
  | None =>
      let cards := push cards (renderApiCard p apiName apiExchange) in
      let cards :=
        push cards
          (Some (HttpRequestCard (cardProps p CardKey.request) exchange)) in
      let cards :=
        if HttpExchange.hasRequestBody exchange
        then push cards (Some (renderRequestBody p exchange apiExchange))
        else cards in
      match HttpExchange.responseBreakpoint exchange with
      | None =>
          (* exchange.responseBreakpoint!.updateMetadata *)
          Js.throw (Js.TypeError (Js.lit "updateMetadata"))
      | Some responseBreakpoint =>
          let cards :=
            push cards
              (Some (HttpBreakpointResponseCard
                       (cardProps p CardKey.response) exchange)) in
          let cards :=
            push cards (Some (renderResponseBody p exchange apiExchange)) in
          Js.ret cards
      end
  end.

Definition renderNormalCards (p : Pane) (exchange : HttpExchange.t)
    (apiName : option Js.str)
    (apiExchange : option HttpExchange.ApiExchange)
    : Js.M (list (option Element)) :=
  let response := HttpExchange.response exchange in
  let cards : list (option Element) := [] in
  let cards := push cards (renderApiCard p apiName apiExchange) in
  let cards :=
    push cards
      (Some (HttpRequestCard (cardProps p CardKey.request) exchange)) in
  let cards :=
    if HttpExchange.hasRequestBody exchange
    then push cards (Some (renderRequestBody p exchange apiExchange))
    else cards in
  let cards :=
    match response with
    | HttpExchange.aborted =>
        push cards
          (Some (AbortedResponseCard (cardProps p CardKey.response) left))
    | HttpExchange.Completed statusCode =>
        let cards :=
          push cards
            (Some (HttpResponseCard (cardProps p CardKey.response)
                     statusCode apiExchange)) in
        if HttpExchange.hasResponseBody exchange
        then push cards (Some (renderResponseBody p exchange apiExchange))
        else cards
    | HttpExchange.NoResponse => cards
    end in
  if HttpExchange.isWebSocket exchange && HttpExchange.wasAccepted exchange
  then
    messages <- renderWebSocketMessages p exchange ;;
    let cards := push cards (Some messages) in
    let cards :=
      match HttpExchange.closeState exchange with
      | Some closeState =>
          push cards
            (Some (WebSocketCloseCard (cardProps p CardKey.webSocketClose)
                     closeState))
      | None => cards
      end in
    Js.ret cards
  else
    (* We only show performance & export for non-websockets, for now *)
    let cards := push cards (Some CardDivider) in
    let cards :=
      push cards
        (Some (HttpPerformanceCard (cardProps p CardKey.performance)
                 exchange)) in
    let cards :=
      push cards
        (Some (HttpExportCard (cardProps p CardKey.export) exchange)) in
    Js.ret cards.

Section Render.

(** [_.startCase] of lodash, and [tagsToErrorType] with the error types
    it classifies to (http-error-header, not among the sources). *)
Variable startCase : Js.str -> Js.str.
Variable ErrorType : Type.
Variable tagsToErrorType : list Js.str -> option ErrorType.

Inductive Header :=
| HttpRequestBreakpointHeader
| HttpResponseBreakpointHeader
| HttpErrorHeader (type : ErrorType) (isPaidUser : bool).

Inductive View :=
| ExpandedContentContainer (expandCompleted : bool)
    (headerCard : option Header) (card : option Element)
| OuterContainer (headerCard : option Header)
    (cards : list (option Element)) (footerIsPaidUser : bool).

Definition renderHeaderCard (p : Pane) (exchange : HttpExchange.t)
    : option Header :=
  match HttpExchange.requestBreakpoint exchange with
  | Some _ => Some HttpRequestBreakpointHeader
  | None =>
      match HttpExchange.responseBreakpoint exchange with
      | Some _ => Some HttpResponseBreakpointHeader
      | None =>
          match tagsToErrorType (HttpExchange.tags exchange) with
          | Some errorType => Some (HttpErrorHeader errorType (isPaidUser p))
          | None => None
          end
      end
  end.

Definition render (p : Pane) : Js.M View :=
  let exchange := exchange p in
  let isPaidUser := isPaidUser p in
  let expandedCard := UiStore.expandedCard (uiStore p) in
  let expandCompleted := expandCompleted p in
  (* The full API details - only available for paid usage *)
  let apiExchange :=
    if isPaidUser then HttpExchange.api exchange else None in
  (* We do still want the API name though, if there is one *)
  let apiName :=
    match HttpExchange.api exchange with
    | Some api =>
        if HttpExchange.matchedOperation api
        then Some (makeFriendlyApiName startCase (HttpExchange.serviceName api))
        else None
    | None => None
    end in
  let headerCard := renderHeaderCard p exchange in
  match expandedCard with
  | Some expandedCard =>
      card <- renderExpandedCard p expandedCard exchange apiExchange ;;
      Js.ret (ExpandedContentContainer expandCompleted headerCard card)
  | None =>
      cards <-
        (if Js.defined (HttpExchange.requestBreakpoint exchange)
            || Js.defined (HttpExchange.responseBreakpoint exchange)
         then renderBreakpointCards p exchange apiName apiExchange
         else renderNormalCards p exchange apiName apiExchange) ;;
      Js.ret (OuterContainer headerCard cards isPaidUser)
  end.

End Render.

Arguments ExpandedContentContainer {ErrorType}.
Arguments OuterContainer {ErrorType}.
Arguments HttpRequestBreakpointHeader {ErrorType}.
Arguments HttpResponseBreakpointHeader {ErrorType}.
Arguments HttpErrorHeader {ErrorType}.

(** The cards of a view, as mounted, and their keys in order. *)
Definition viewCards {E} (v : View E) : list Element :=
  match v with
  | ExpandedContentContainer _ _ card => mounted [card]
  | OuterContainer _ cards _ => mounted cards
  end.

Definition panelOrder {E} (v : View E) : list Js.str :=
  List.map panelName (viewCards v).

(* ================================================================== *)
(** ** The actions                                                     *)
(* ================================================================== *)

Definition toggleCollapse (key : Js.str) (p : Pane) : Js.outcome Pane :=
  let viewCardStates := UiStore.viewCardStates (uiStore p) in
  match CardKey.ofName key with            (* viewCardStates[key as CardKey] *)
  | None =>
      if Js.inheritedProperty key then
        (* cardState is a value every object inherits: its [collapsed]
           is read as [undefined] and written on that value, which is no
           card state and no part of the pane; the body goes on *)
        Js.Returned
          (withUiStore (UiStore.setExpandedCard None (uiStore p)) p)
      else
        (* cardState is undefined: reading its [collapsed] throws *)
        Js.Thrown (Js.TypeError (Js.lit "collapsed"))
  | Some k =>
      let cardState := viewCardStates k in
      let p :=
        withUiStore
          (UiStore.setCollapsed k (negb (UiStore.collapsed cardState))
             (uiStore p)) p in
      Js.Returned
        (withUiStore (UiStore.setExpandedCard None (uiStore p)) p)
  end.

Definition toggleExpand (key : CardKey.t) (p : Pane) : Pane :=
  if UiStore.expandedIs (uiStore p) key then
    withUiStore (UiStore.setExpandedCard None (uiStore p)) p
  else
    match Expandable.ofKey key with
    | Some expandable =>
        let p :=
          withUiStore (UiStore.setCollapsed key false (uiStore p)) p in
        let p :=
          withUiStore
            (UiStore.setExpandedCard (Some expandable) (uiStore p)) p in
        let p := withExpandCompleted false p in
        requestAnimationFrame CompleteExpand p
    | None => p
    end.

(** Running one requested callback. *)
Definition runFrameCallback (cb : FrameCallback) (p : Pane) : Pane :=
  match cb with
  | CompleteExpand => withExpandCompleted true p
  end.

(** The oldest outstanding callback runs and leaves the queue. *)
Definition runNextFrameCallback (p : Pane) : Pane :=
  match animationFrames p with
  | [] => p
  | cb :: rest =>
      runFrameCallback cb
        {| exchange := exchange p; uiStore := uiStore p;
           isPaidUser := isPaidUser p;
           expandCompleted := expandCompleted p;
           animationFrames := rest |}
  end.

(** An animation frame: every outstanding callback runs, oldest first. *)
Fixpoint runCallbacks (n : nat) (p : Pane) : Pane :=
  match n with
  | 0 => p
  | S n' => runCallbacks n' (runNextFrameCallback p)
  end.

Definition animationFrame (p : Pane) : Pane :=
  runCallbacks (length (animationFrames p)) p.

(** How many of the outstanding callbacks, run in order, change
    [expandCompleted] from [false] to [true]. *)
Fixpoint completions (n : nat) (p : Pane) : nat :=
  match n with
  | 0 => 0
  | S n' =>
      let p' := runNextFrameCallback p in
      (if negb (expandCompleted p) && expandCompleted p' then 1 else 0)
      + completions n' p'
  end.

(** The test of the filter in [ignoreError]: the tags that stay. *)
Definition keptByIgnoreError (t : Js.str) : bool :=
  negb (Js.startsWith t (Js.lit "passthrough-error:"))
  && negb (Js.startsWith t (Js.lit "passthrough-tls-error:"))
  && negb (Js.startsWith t (Js.lit "client-error:"))
  && negb (existsb (Js.eqb t) [Js.lit "header-overflow"; Js.lit "http-2"]).

Definition ignoreError (p : Pane) : Pane :=
  let exchange := exchange p in
  (* Drop all error tags from this exchange *)
  withExchange
    (HttpExchange.setTags
       (filter keptByIgnoreError (HttpExchange.tags exchange)) exchange)
    p.

(* ================================================================== *)
(** ** Vocabulary of the statements                                    *)
(* ================================================================== *)

(** A tag of one of the error families. *)
Definition ErrorFamily (t : Js.str) : Prop :=
  (exists rest, t = Js.lit "passthrough-error:" ++ rest)
  \/ (exists rest, t = Js.lit "passthrough-tls-error:" ++ rest)
  \/ (exists rest, t = Js.lit "client-error:" ++ rest)
  \/ t = Js.lit "header-overflow"
  \/ t = Js.lit "http-2".

(** [Removed P l l']: [l'] is [l] without exactly its elements that
    satisfy [P], the others all there, as often and in the same order. *)
Inductive Removed (P : Js.str -> Prop) : list Js.str -> list Js.str -> Prop :=
| Removed_nil : Removed P [] []
| Removed_drop t l l' : P t -> Removed P l l' -> Removed P (t :: l) l'
| Removed_keep t l l' : ~ P t -> Removed P l l' -> Removed P (t :: l) (t :: l').

(** A string that does not end in white space. *)
Definition NoTrailingWhiteSpace (s : Js.str) : Prop :=
  s = [] \/ exists t c, s = t ++ [c] /\ Js.isWhiteSpace c = false.

(** The keys [toggleExpand] expands. *)
Definition isExpandable (k : CardKey.t) : bool :=
  Js.defined (Expandable.ofKey k).

(** The expanded card the exchange can show, by the three tests of
    [renderExpandedCard]. *)
Definition legalExpansion (e : Expandable.t) (x : HttpExchange.t) : bool :=
  match e with
  | Expandable.requestBody => true
  | Expandable.responseBody =>
      HttpExchange.isSuccessfulExchange x
      || Js.defined (HttpExchange.responseBreakpoint x)
  | Expandable.webSocketMessages =>
      HttpExchange.isWebSocket x && HttpExchange.wasAccepted x
  end.

(** The number of '/'-separated segments of the request URL. *)
Definition urlSegments (x : HttpExchange.t) : nat :=
  length (Js.split (HttpExchange.requestUrl x) Js.slash).

(** The message list is shown in both the expanded and the normal view
    of an accepted WebSocket. *)
Definition showsMessages (x : HttpExchange.t) : bool :=
  HttpExchange.isWebSocket x && HttpExchange.wasAccepted x.

(** No breakpoint is pending. *)
Definition isNormal (x : HttpExchange.t) : Prop :=
  HttpExchange.requestBreakpoint x = None
  /\ HttpExchange.responseBreakpoint x = None.

(** The exchange matched no API operation. *)
Definition noApiMatch (x : HttpExchange.t) : Prop :=
  match HttpExchange.api x with
  | Some a => HttpExchange.matchedOperation a = false
  | None => True
  end.

(* ================================================================== *)
(** ** The pane over time                                              *)
(* ================================================================== *)

(** What a bound method does when the card it was handed to calls it. *)
Definition invoke (cb : Callback) (p : Pane) : Js.outcome Pane :=
  match cb with
  | ToggleCollapse key => toggleCollapse key p
  | ToggleExpand key => Js.Returned (toggleExpand key p)
  end.

(** What happens to a mounted pane: a card calls a bound method, the
    error header calls [ignoreError], the browser runs an animation
    frame. *)
Inductive Event :=
| Invoke (cb : Callback)
| IgnoreError
| AnimationFrame.

(** The pane after an event. The one method that can throw,
    [toggleCollapse], throws only under a name the card states have no
    property for, own or inherited, and then on its first read of
    [collapsed], before it has written anything: the pane is then as it
    was. *)
Definition step (ev : Event) (p : Pane) : Pane :=
  match ev with
  | Invoke cb =>
      match invoke cb p with
      | Js.Returned p' => p'
      | Js.Thrown _ => p
      end
  | IgnoreError => ignoreError p
  | AnimationFrame => animationFrame p
  end.

Fixpoint run (evs : list Event) (p : Pane) : Pane :=
  match evs with
  | [] => p
  | ev :: rest => run rest (step ev p)
  end.

(** The expanded card, if any, is not collapsed. *)
Definition ExpandedNotCollapsed (p : Pane) : Prop :=
  forall e, UiStore.expandedCard (uiStore p) = Some e ->
    UiStore.collapsed (UiStore.viewCardStates (uiStore p) (Expandable.key e))
    = false.

(** An expansion that is not completed has a callback outstanding that
    will complete it. *)
Definition CompletionScheduled (p : Pane) : Prop :=
  expandCompleted p = false -> animationFrames p <> [].

(** [render] builds the message list: for an accepted WebSocket, when the
    messages are the expanded card, or no card is and no breakpoint is
    pending. *)
Definition buildsMessages (p : Pane) : bool :=
  showsMessages (exchange p)
  && match UiStore.expandedCard (uiStore p) with
     | Some Expandable.webSocketMessages => true
     | Some _ => false
     | None =>
         negb (Js.defined (HttpExchange.requestBreakpoint (exchange p))
               || Js.defined (HttpExchange.responseBreakpoint (exchange p)))
     end.

(** The API card is there: an operation matched and its friendly name is
    not empty. *)
Definition showsApiCard (startCase : Js.str -> Js.str) (x : HttpExchange.t)
    : bool :=
  match HttpExchange.api x with
  | Some a =>
      HttpExchange.matchedOperation a
      && Js.truthy (makeFriendlyApiName startCase (HttpExchange.serviceName a))
  | None => false
  end.

(** Truthiness of the name [renderApiCard] is given. *)
Definition namedApi (apiName : option Js.str) : bool :=
  match apiName with
  | Some name => Js.truthy name
  | None => false
  end.



(** The card keys in their order, with the divider where [render] puts
    it. *)
Definition canonicalOrder : list Js.str :=
  [Js.lit "api"; Js.lit "request"; Js.lit "requestBody"; Js.lit "response";
   Js.lit "responseBody"; Js.lit "webSocketMessages";
   Js.lit "webSocketClose"; Js.lit "divider"; Js.lit "performance";
   Js.lit "export"].

(** [Subsequence a b]: [a] is [b] with some elements left out. *)
Inductive Subsequence {A : Type} : list A -> list A -> Prop :=
| Subsequence_nil : Subsequence [] []
| Subsequence_skip x a b : Subsequence a b -> Subsequence a (x :: b)
| Subsequence_take x a b : Subsequence a b -> Subsequence (x :: a) (x :: b).

Fixpoint subsequenceb (a b : list Js.str) {struct b} : bool :=
  match a, b with
  | [], _ => true
  | _ :: _, [] => false
  | x :: a', y :: b' =>
      if Js.eqb x y then subsequenceb a' b' else subsequenceb a b'
  end.

(** The names of the panels of the normal cards, by the facts of the
    exchange. *)
Definition normalPanels (apiCard : bool) (x : HttpExchange.t) : list Js.str :=
  (if apiCard then [Js.lit "api"] else [])
  ++ [Js.lit "request"]
  ++ (if HttpExchange.hasRequestBody x then [Js.lit "requestBody"] else [])
  ++ match HttpExchange.response x with
     | HttpExchange.NoResponse => []
     | HttpExchange.aborted => [Js.lit "response"]
     | HttpExchange.Completed _ =>
         Js.lit "response"
         :: (if HttpExchange.hasResponseBody x
             then [Js.lit "responseBody"] else [])
     end
  ++ (if showsMessages x
      then Js.lit "webSocketMessages"
           :: (if Js.defined (HttpExchange.closeState x)
               then [Js.lit "webSocketClose"] else [])
      else [Js.lit "divider"; Js.lit "performance"; Js.lit "export"]).

(** And of the cards at a breakpoint. *)
Definition breakpointPanels (apiCard : bool) (x : HttpExchange.t)
    : list Js.str :=
  if Js.defined (HttpExchange.requestBreakpoint x)
  then [Js.lit "request"; Js.lit "requestBody"]
  else
    (if apiCard then [Js.lit "api"] else [])
    ++ [Js.lit "request"]
    ++ (if HttpExchange.hasRequestBody x then [Js.lit "requestBody"] else [])
    ++ [Js.lit "response"; Js.lit "responseBody"].

(** [a.join(sep)] for a one-character separator. *)
Fixpoint join (pieces : list Js.str) (sep : N) : Js.str :=
  match pieces with
  | [] => []
  | [piece] => piece
  | piece :: rest => piece ++ sep :: join rest sep
  end.

(* ================================================================== *)
(** ** The interception options (model/interception/interceptors)      *)
(* ================================================================== *)

Module Interceptors.

Record AccountStore := { featureFlags : list Js.str }.

(** The fields of [ServerInterceptor] (services/server-api, not among the
    sources) this file reads, keys by or overrides. *)
Record ServerInterceptor := {
  server_id : Js.str;
  server_version : Js.str;
  server_isActivable : bool;
  server_isActive : bool
}.

(** The argument of [checkRequirements]; the version is [undefined] when
    the server knows no such interceptor. *)
Record Requirements := {
  interceptorVersion : option Js.str;
  req_accountStore : AccountStore;
  req_serverVersion : option Js.str
}.

(** The argument of [getActivationOptions]. *)
Record ActivationContext := {
  act_accountStore : AccountStore;
  act_serverVersion : option Js.str
}.

(** What [getChromiumOptions] returns. *)
Record ActivationOptions := { webExtensionEnabled : bool }.

Record InterceptorConfig := {
  name : Js.str;
  description : list Js.str;
  tags : list Js.str;
  inProgress : option bool;
  (** [clientOnly?: true] *)
  clientOnly : bool;
  checkRequirements : option (Requirements -> bool);
  getActivationOptions : option (ActivationContext -> ActivationOptions);
  notAvailableHelpUrl : option Js.str
}.

(** What [_.assign] builds for one option: the option, and the fields
    the branch or the server's interceptor defines; a field none of the
    sources defines is [undefined]. *)
Record Interceptor := {
  config : InterceptorConfig;
  id : Js.str;
  version : option Js.str;
  isSupported : bool;
  isActive : option bool;
  isActivable : option bool;
  activationOptions : option ActivationOptions
}.

(** [_.keyBy(array, 'id')], read at one key: the last element with that
    id. *)
Definition keyBy (array : list ServerInterceptor) (key : Js.str)
    : option ServerInterceptor :=
  find (fun s => Js.eqb (server_id s) key) (rev array).

(** [_.mapValues(object, fn)] on an object written as its entries. *)
Definition mapValues {A B} (object : list (Js.str * A))
    (fn : A -> Js.str -> B) : list (Js.str * B) :=
  List.map (fun entry => (fst entry, fn (snd entry) (fst entry))) object.

(** [array.includes(s)] for an array of strings. *)
Definition includes (array : list Js.str) (s : Js.str) : bool :=
  existsb (Js.eqb s) array.

Section Options.

(** [versionSatisfies] and the range constant of services/service-versions;
    the version may be [undefined]. *)
Variable versionSatisfies : option Js.str -> Js.str -> bool.
Variable WEBRTC_GLOBALLY_ENABLED : Js.str.

Definition getChromiumOptions (context : ActivationContext)
    : ActivationOptions :=
  {| webExtensionEnabled :=
       includes (featureFlags (act_accountStore context)) (Js.lit "webrtc")
       || versionSatisfies
            (* serverVersion || '' *)
            (Some (match act_serverVersion context with
                   | Some v => v
                   | None => []
                   end))
            WEBRTC_GLOBALLY_ENABLED |}.

Definition INTERCEPT_OPTIONS : list (Js.str * InterceptorConfig) :=
  [(Js.lit "electron",
    {| name := Js.lit "Electron Application";
       description :=
         [Js.lit "Launch an Electron application with all its traffic intercepted"];
       tags := [Js.lit "electron"; Js.lit "desktop"; Js.lit "postman"];
       inProgress := None;
       clientOnly := false;
       checkRequirements :=
         Some (fun requirements =>
                 versionSatisfies (interceptorVersion requirements)
                   (Js.lit "^1.0.1"));
       getActivationOptions := None;
       notAvailableHelpUrl := None |})].

(** The function [getInterceptOptions] maps over the options. *)
Definition resolveOption
    (serverInterceptors : Js.str -> option ServerInterceptor)
    (accountStore : AccountStore) (serverVersion : option Js.str)
    (option : InterceptorConfig) (id : Js.str) : Interceptor :=
  if (* If we need a server interceptor & it's not present *)
     (negb (clientOnly option) && negb (Js.defined (serverInterceptors id)))
     (* Or if we're missing other requirement *)
     || match checkRequirements option with
        | Some check =>
            negb (check
                    {| interceptorVersion :=
                         option_map server_version (serverInterceptors id);
                       req_accountStore := accountStore;
                       req_serverVersion := serverVersion |})
        | None => false
        end
  then
    (* The UI knows about this interceptor, but we can't use it *)
    {| config := option; id := id; version := None;
       isSupported := false; isActive := Some false;
       isActivable := Some false; activationOptions := None |}
  else if clientOnly option then
    {| config := option; id := id; version := None;
       isSupported := true; isActive := Some false;
       isActivable := Some true;
       activationOptions :=
         match getActivationOptions option with
         | Some get =>
             Some (get {| act_accountStore := accountStore;
                          act_serverVersion := serverVersion |})
         | None => None
         end |}
  else
    (* the UI & server supports this, we let the server tell us if it's
       activable/currently active *)
    let serverInterceptor := serverInterceptors id in
    {| config := option; id := id;
       version := option_map server_version serverInterceptor;
       isSupported := true;
       isActive := option_map server_isActive serverInterceptor;
       isActivable := option_map server_isActivable serverInterceptor;
       activationOptions :=
         match getActivationOptions option with
         | Some get =>
             Some (get {| act_accountStore := accountStore;
                          act_serverVersion := serverVersion |})
         | None => None
         end |}.

Definition getInterceptOptions
    (serverInterceptorArray : list ServerInterceptor)
    (accountStore : AccountStore) (serverVersion : option Js.str)
    : list (Js.str * Interceptor) :=
  let serverInterceptors := keyBy serverInterceptorArray in
  mapValues INTERCEPT_OPTIONS
    (resolveOption serverInterceptors accountStore serverVersion).

End Options.

End Interceptors.

(* ================================================================== *)
(** ** The sidebar (components/sidebar)                                *)
(* ================================================================== *)

Module Sidebar.

Inductive Position := top | bottom.
Inductive ItemType := web | router | callback.

(** [icon] and [onClick] are handed on as they are: the icon is kept by
    name, the click handler by the name of its item. *)
Record SidebarItem := {
  name : Js.str;
  icon : Js.str;
  position : Position;
  (** [highlight?: true] *)
  highlight : bool;
  type : ItemType;
  url : option Js.str
}.

(** The icon and the name every item shows. *)
Record ItemContent := { contentIcon : Js.str; contentName : Js.str }.

Inductive Component :=
| SidebarLink (key : Js.str) (highlight : bool) (href : option Js.str)
    (content : ItemContent)
| Match (key : Js.str) (path : Js.str) (to : option Js.str)
    (content : ItemContent)
| SidebarButton (key : Js.str) (highlight : bool) (onClickOf : Js.str)
    (content : ItemContent).

Inductive Child :=
| SidebarLogo
| Item (component : Component)
| Separator.

Definition positionEqb (a b : Position) : bool :=
  match a, b with
  | top, top | bottom, bottom => true
  | _, _ => false
  end.

(** The body of [props.items.map((item, i) => ...)]. *)
Definition itemComponent (item : SidebarItem) : Position * Component :=
  let itemContent :=
    {| contentIcon := icon item; contentName := name item |} in
  match type item with
  | web =>
      (position item,
       SidebarLink (name item) (highlight item) (url item) itemContent)
  | router =>
      (position item,
       Match (name item)
         (match url item with Some u => u | None => Js.lit "undefined" end
          ++ Js.lit "/*")
         (url item) itemContent)
  | callback =>
      (position item,
       SidebarButton (name item) (highlight item) (name item) itemContent)
  end.

(** The children of the [SidebarNav] that [Sidebar] returns. *)
Definition sidebar (items : list SidebarItem) : list Child :=
  let items := List.map itemComponent items in
  [SidebarLogo]
  ++ List.map (fun i => Item (snd i))
       (filter (fun i => positionEqb (fst i) top) items)
  ++ [Separator]
  ++ List.map (fun i => Item (snd i))
       (filter (fun i => positionEqb (fst i) bottom) items).

(** The components among the children. *)
Fixpoint components (children : list Child) : list Component :=
  match children with
  | [] => []
  | Item c :: rest => c :: components rest
  | _ :: rest => components rest
  end.

(** The components above the separator, and below it. *)
Fixpoint above (children : list Child) : list Component :=
  match children with
  | [] => []
  | Separator :: _ => []
  | Item c :: rest => c :: above rest
  | SidebarLogo :: rest => above rest
  end.

Fixpoint below (children : list Child) : list Component :=
  match children with
  | [] => []
  | Separator :: rest => components rest
  | _ :: rest => below rest
  end.

End Sidebar.

(* ================================================================== *)
(** ** Sample data                                                     *)
(* ================================================================== *)

Module Sample.

Definition cardStates (k : CardKey.t) : UiStore.CardState :=
  {| UiStore.collapsed :=
       match k with
       | CardKey.api | CardKey.performance | CardKey.export => true
       | _ => false
       end |}.

Definition store : UiStore.t :=
  {| UiStore.expandedCard := None; UiStore.viewCardStates := cardStates |}.

(** A completed GET with both bodies. *)
Definition completed : HttpExchange.t :=
  {| HttpExchange.id := Js.lit "e1";
     HttpExchange.requestUrl := Js.lit "https://example.com/a/b";
     HttpExchange.response := HttpExchange.Completed 200;
     HttpExchange.requestBreakpoint := None;
     HttpExchange.responseBreakpoint := None;
     HttpExchange.tags :=
       [Js.lit "client-error:reset"; Js.lit "ok"; Js.lit "header-overflow"];
     HttpExchange.api := None;
     HttpExchange.closeState := None;
     HttpExchange.hasRequestBody := true;
     HttpExchange.hasResponseBody := true;
     HttpExchange.isWebSocket := false;
     HttpExchange.wasAccepted := false;
     HttpExchange.isSuccessfulExchange := true |}.

(** An accepted WebSocket at the given URL with the given response. *)
Definition webSocket (url : Js.str) (r : HttpExchange.Response)
    : HttpExchange.t :=
  {| HttpExchange.id := Js.lit "e2";
     HttpExchange.requestUrl := url;
     HttpExchange.response := r;
     HttpExchange.requestBreakpoint := None;
     HttpExchange.responseBreakpoint := None;
     HttpExchange.tags := [];
     HttpExchange.api := None;
     HttpExchange.closeState := None;
     HttpExchange.hasRequestBody := false;
     HttpExchange.hasResponseBody := true;
     HttpExchange.isWebSocket := true;
     HttpExchange.wasAccepted := true;
     HttpExchange.isSuccessfulExchange :=
       match r with HttpExchange.Completed _ => true | _ => false end |}.

Definition pane (x : HttpExchange.t) : Pane :=
  {| exchange := x; uiStore := store; isPaidUser := true;
     expandCompleted := true; animationFrames := [] |}.

(** The same pane with a card expanded. *)
Definition expandedPane (e : Expandable.t) (x : HttpExchange.t) : Pane :=
  withUiStore (UiStore.setExpandedCard (Some e) store) (pane x).

(** The response body expanded while the request body card, not shown,
    is still collapsed from before: the state after
    [toggleCollapse('requestBody')] and [toggleExpand('responseBody')]. *)
Definition requestBodyCollapsed : Pane :=
  withUiStore
    (UiStore.setExpandedCard (Some Expandable.responseBody)
       (UiStore.setCollapsed CardKey.requestBody true store))
    (pane completed).

(** An exchange that matched an operation of a documented API. *)
Definition documented : HttpExchange.t :=
  {| HttpExchange.id := Js.lit "e4";
     HttpExchange.requestUrl := Js.lit "https://api.example.com/users/1";
     HttpExchange.response := HttpExchange.Completed 200;
     HttpExchange.requestBreakpoint := None;
     HttpExchange.responseBreakpoint := None;
     HttpExchange.tags := [];
     HttpExchange.api :=
       Some {| HttpExchange.serviceName := Js.lit "Example Users API";
               HttpExchange.matchedOperation := true |};
     HttpExchange.closeState := None;
     HttpExchange.hasRequestBody := false;
     HttpExchange.hasResponseBody := true;
     HttpExchange.isWebSocket := false;
     HttpExchange.wasAccepted := false;
     HttpExchange.isSuccessfulExchange := true |}.


(** An exchange held at a request breakpoint, the draft body being
    edited. *)
Definition atRequestBreakpoint : HttpExchange.t :=
  {| HttpExchange.id := Js.lit "e5";
     HttpExchange.requestUrl := Js.lit "example.com";
     HttpExchange.response := HttpExchange.NoResponse;
     HttpExchange.requestBreakpoint :=
       Some {| HttpExchange.inProgressBody := Js.lit "draft" |};
     HttpExchange.responseBreakpoint := None;
     HttpExchange.tags := [];
     HttpExchange.api := None;
     HttpExchange.closeState := None;
     HttpExchange.hasRequestBody := false;
     HttpExchange.hasResponseBody := false;
     HttpExchange.isWebSocket := true;
     HttpExchange.wasAccepted := true;
     HttpExchange.isSuccessfulExchange := false |}.

(** Stand-ins for the two functions of other modules. *)
Definition startCase (s : Js.str) : Js.str := s.
Definition tagsToErrorType (tags : list Js.str) : option Js.str :=
  find (fun t => negb (keptByIgnoreError t)) tags.

End Sample.

(* ================================================================== *)
(** ** Facts about the string primitives                               *)
(* ================================================================== *)

Lemma Js_eqb_eq (a b : Js.str) : Js.eqb a b = true <-> a = b.
Proof.
  revert b. induction a as [|x a IH]; intros [|y b]; simpl;
    try (split; [discriminate | discriminate]); try tauto.
  rewrite andb_true_iff, N.eqb_eq, IH. split.
  - intros [-> ->]. reflexivity.
  - intros H. injection H as -> ->. split; reflexivity.
Qed.

Lemma Js_startsWith_prefix (s p : Js.str) :
  Js.startsWith s p = true <-> exists rest, s = p ++ rest.
Proof.
  revert s. induction p as [|y p IH]; intros s; simpl.
  - split; [intros _; exists s; reflexivity | reflexivity].
  - destruct s as [|x s].
    + split; [discriminate | intros [rest H]; discriminate].
    + rewrite andb_true_iff, N.eqb_eq, IH. split.
      * intros [-> [rest ->]]. exists rest. reflexivity.
      * intros [rest H]. injection H as -> ->. split; [reflexivity | eauto].
Qed.

Lemma Js_includes_In (s : Js.str) (c : N) :
  Js.includes s c = true <-> In c s.
Proof.
  unfold Js.includes. rewrite existsb_exists. split.
  - intros [x [Hin Heq]]. apply N.eqb_eq in Heq. subst. assumption.
  - intros Hin. exists c. split; [assumption | apply N.eqb_refl].
Qed.

(** [trimRight] only removes a suffix, and that suffix is white space. *)
Lemma Js_trimRight_suffix (s : Js.str) :
  exists ws, s = Js.trimRight s ++ ws
             /\ Forall (fun c => Js.isWhiteSpace c = true) ws.
Proof.
  induction s as [|c s [ws [Heq Hws]]]; simpl.
  - exists []. split; [reflexivity | constructor].
  - destruct (Js.trimRight s) as [|d t] eqn:Ht.
    + destruct (Js.isWhiteSpace c) eqn:Hc.
      * exists (c :: s). split; [reflexivity |].
        simpl in Heq. subst ws. constructor; assumption.
      * exists s. split; [reflexivity |].
        simpl in Heq. subst ws. assumption.
    + exists ws. split; [| assumption].
      simpl. f_equal. exact Heq.
Qed.

(** What [trimRight] leaves does not end in white space. *)
Lemma Js_trimRight_end (s : Js.str) : NoTrailingWhiteSpace (Js.trimRight s).
Proof.
  induction s as [|c s IH]; simpl.
  - left. reflexivity.
  - destruct (Js.trimRight s) as [|d t] eqn:Ht.
    + destruct (Js.isWhiteSpace c) eqn:Hc.
      * left. reflexivity.
      * right. exists [], c. split; [reflexivity | assumption].
    + right. destruct IH as [IH | [t' [c' [Heq Hc']]]]; [discriminate |].
      exists (c :: t'), c'. split; [| assumption].
      simpl. f_equal. exact Heq.
Qed.

Lemma Js_trimRight_length (s : Js.str) :
  length (Js.trimRight s) <= length s.
Proof.
  destruct (Js_trimRight_suffix s) as [ws [Heq _]].
  rewrite Heq at 2. rewrite length_app. lia.
Qed.

(** [split] counts one piece more than there are separators. *)
Lemma Js_splitFrom_count (sep : N) (piece s : Js.str) :
  length (Js.splitFrom sep piece s)
  = S (length (filter (fun c => N.eqb c sep) s)).
Proof.
  revert piece. induction s as [|c s IH]; intros piece; simpl.
  - reflexivity.
  - destruct (N.eqb c sep); simpl; rewrite IH; reflexivity.
Qed.

(* ================================================================== *)
(** ** The friendly API name                                           *)
(* ================================================================== *)

(** C5. The display name of a raw API operation name: the name is put
    through [startCase] exactly when it holds no space (U+0020) and is
    longer than 6; a result longer than 75 is cut after its first 72 code
    units, the white space at their end is dropped (and nothing else),
    and one ellipsis (U+2026) is appended; otherwise the result is left as
    it is. The displayed name is never longer than 75. *)
Theorem makeFriendlyApiName_display
    (startCase : Js.str -> Js.str) (rawName : Js.str) :
  exists cleanedName,
    ((~ In 32%N rawName /\ 6 < length rawName
      /\ cleanedName = startCase rawName)
     \/ ((In 32%N rawName \/ length rawName <= 6)
         /\ cleanedName = rawName))
    /\ ((length cleanedName <= 75
         /\ makeFriendlyApiName startCase rawName = cleanedName)
        \/ (75 < length cleanedName
            /\ exists kept ws rest,
                 cleanedName = (kept ++ ws) ++ rest
                 /\ length (kept ++ ws) = 72
                 /\ Forall (fun c => Js.isWhiteSpace c = true) ws
                 /\ NoTrailingWhiteSpace kept
                 /\ makeFriendlyApiName startCase rawName
                    = kept ++ [8230%N]))
    /\ length (makeFriendlyApiName startCase rawName) <= 75.
Proof.
  unfold makeFriendlyApiName. cbv zeta.
  set (camel := negb (Js.includes rawName Js.space) && (6 <? length rawName)).
  set (cleanedName := if camel then startCase rawName else rawName).
  exists cleanedName.
  split; [| split].
  - subst cleanedName camel.
    destruct (Js.includes rawName Js.space) eqn:Hinc; simpl.
    + right. split; [| reflexivity].
      left. apply (Js_includes_In rawName Js.space). assumption.
    + destruct (Nat.ltb_spec 6 (length rawName)) as [Hlen | Hlen].
      * left. split; [| split; [assumption | reflexivity]].
        intros Hin. apply (Js_includes_In rawName Js.space) in Hin.
        congruence.
      * right. split; [right; assumption | reflexivity].
  - destruct (Nat.ltb_spec 75 (length cleanedName)) as [Hlong | Hshort].
    + right. split; [assumption |].
      destruct (Js_trimRight_suffix (Js.slice0 72 cleanedName))
        as [ws [Heq Hws]].
      exists (Js.trimRight (Js.slice0 72 cleanedName)), ws,
        (skipn 72 cleanedName).
      unfold Js.slice0 in *.
      split; [rewrite <- Heq; symmetry; apply firstn_skipn |].
      split; [rewrite <- Heq, length_firstn; lia |].
      split; [assumption |].
      split; [apply Js_trimRight_end | reflexivity].
    + left. split; [assumption | reflexivity].
  - destruct (Nat.ltb_spec 75 (length cleanedName)) as [Hlong | Hshort];
      [| assumption].
    pose proof (Js_trimRight_length (Js.slice0 72 cleanedName)) as Ht.
    unfold Js.slice0 in Ht. rewrite length_firstn in Ht.
    rewrite length_app. change (length [Js.ellipsis]) with 1.
    unfold Js.slice0. lia.
Qed.

(* ================================================================== *)
(** ** Ignoring an error                                               *)
(* ================================================================== *)

(** The filter of [ignoreError] drops a tag exactly when the tag is of an
    error family. *)
Lemma keptByIgnoreError_family (t : Js.str) :
  keptByIgnoreError t = false <-> ErrorFamily t.
Proof.
  unfold keptByIgnoreError, ErrorFamily. simpl existsb.
  rewrite !andb_false_iff, !negb_false_iff, !orb_true_iff.
  rewrite !Js_startsWith_prefix, !Js_eqb_eq.
  split.
  - intros [[[H | H] | H] | [H | [H | H]]]; auto; discriminate.
  - intros [H | [H | [H | [H | H]]]]; auto.
Qed.

(** Filtering by a test that decides [P] removes exactly the [P]s. *)
Lemma Removed_filter (P : Js.str -> Prop) (keep : Js.str -> bool)
    (Hkeep : forall t, keep t = false <-> P t) (l : list Js.str) :
  Removed P l (filter keep l).
Proof.
  induction l as [|t l IH]; simpl.
  - constructor.
  - destruct (keep t) eqn:Ht.
    + apply Removed_keep; [| exact IH].
      intros HP. apply Hkeep in HP. congruence.
    + apply Removed_drop; [| exact IH].
      apply Hkeep. exact Ht.
Qed.

(** [Removed P l] determines its result. *)
Lemma Removed_functional (P : Js.str -> Prop) (l l1 l2 : list Js.str) :
  Removed P l l1 -> Removed P l l2 -> l1 = l2.
Proof.
  intros H1. revert l2.
  induction H1 as [| t l l1 HP _ IH | t l l1 HP _ IH]; intros l2 H2;
    inversion H2; subst; try contradiction; auto.
  f_equal. apply IH. assumption.
Qed.

Lemma Removed_none_left (P : Js.str -> Prop) (l l' : list Js.str) :
  Removed P l l' -> Forall (fun t => ~ P t) l'.
Proof.
  induction 1; auto.
Qed.

(** C6. Ignoring the error of an exchange replaces its tags, in one
    assignment, by the same tags without exactly those of the error
    families (the three prefixes and the two exact tags): the others stay,
    as often as they were and in their order, none of a family is left,
    and nothing else of the pane or the exchange changes. *)
Theorem ignoreError_clears_error_tags (p : Pane) :
  let before := HttpExchange.tags (exchange p) in
  let after := HttpExchange.tags (exchange (ignoreError p)) in
  Removed ErrorFamily before after
  /\ Forall (fun t => ~ ErrorFamily t) after
  /\ ignoreError p
     = withExchange (HttpExchange.setTags after (exchange p)) p.
Proof.
  cbv zeta.
  assert (H : Removed ErrorFamily (HttpExchange.tags (exchange p))
                (HttpExchange.tags (exchange (ignoreError p)))).
  { unfold ignoreError. simpl.
    apply Removed_filter. apply keptByIgnoreError_family. }
  split; [exact H |].
  split; [exact (Removed_none_left H) | reflexivity].
Qed.

(* ================================================================== *)
(** ** Collapsing and expanding                                        *)
(* ================================================================== *)

Lemma CardKey_eqb_eq (a b : CardKey.t) : CardKey.eqb a b = true <-> a = b.
Proof.
  unfold CardKey.eqb. destruct (CardKey.eq_dec a b); split; congruence.
Qed.

Lemma CardKey_eqb_refl (a : CardKey.t) : CardKey.eqb a a = true.
Proof. apply CardKey_eqb_eq. reflexivity. Qed.

Lemma CardKey_eqb_neq (a b : CardKey.t) : a <> b -> CardKey.eqb a b = false.
Proof.
  intros H. destruct (CardKey.eqb a b) eqn:E; [| reflexivity].
  apply CardKey_eqb_eq in E. contradiction.
Qed.

(** Every card key is found under its name, and only card keys are. *)
Lemma CardKey_ofName_name (k : CardKey.t) :
  CardKey.ofName (CardKey.name k) = Some k.
Proof. destruct k; reflexivity. Qed.

Lemma CardKey_ofName_some (s : Js.str) (k : CardKey.t) :
  CardKey.ofName s = Some k -> s = CardKey.name k.
Proof.
  unfold CardKey.ofName. intros H. apply find_some in H.
  destruct H as [_ H]. apply Js_eqb_eq in H. congruence.
Qed.

Lemma Expandable_ofKey_key (e : Expandable.t) :
  Expandable.ofKey (Expandable.key e) = Some e.
Proof. destruct e; reflexivity. Qed.

Lemma Expandable_ofKey_some (k : CardKey.t) (e : Expandable.t) :
  Expandable.ofKey k = Some e -> Expandable.key e = k.
Proof. destruct k; simpl; intros H; inversion H; reflexivity. Qed.

(** What is expanded is always an expandable key. *)
Lemma expandedIs_expandable (ui : UiStore.t) (k : CardKey.t) :
  UiStore.expandedIs ui k = true -> isExpandable k = true.
Proof.
  unfold UiStore.expandedIs, isExpandable.
  destruct (UiStore.expandedCard ui) as [e|]; [| discriminate].
  intros H. apply CardKey_eqb_eq in H. subst k.
  rewrite Expandable_ofKey_key. reflexivity.
Qed.

(** The three ways [toggleExpand] goes. *)
Lemma toggleExpand_expanded (p : Pane) (key : CardKey.t) :
  UiStore.expandedIs (uiStore p) key = true ->
  toggleExpand key p
  = withUiStore (UiStore.setExpandedCard None (uiStore p)) p.
Proof. unfold toggleExpand. intros ->. reflexivity. Qed.

Lemma toggleExpand_expands (p : Pane) (key : CardKey.t) (e : Expandable.t) :
  UiStore.expandedIs (uiStore p) key = false ->
  Expandable.ofKey key = Some e ->
  toggleExpand key p
  = requestAnimationFrame CompleteExpand
      (withExpandCompleted false
         (withUiStore
            (UiStore.setExpandedCard (Some e)
               (UiStore.setCollapsed key false (uiStore p))) p)).
Proof. unfold toggleExpand. intros -> ->. reflexivity. Qed.

Lemma toggleExpand_not_expandable (p : Pane) (key : CardKey.t) :
  isExpandable key = false -> toggleExpand key p = p.
Proof.
  intros Hkey. unfold toggleExpand.
  destruct (UiStore.expandedIs (uiStore p) key) eqn:E.
  - apply expandedIs_expandable in E. congruence.
  - unfold isExpandable in Hkey.
    destruct (Expandable.ofKey key); [discriminate | reflexivity].
Qed.

(** C8. Toggling the collapse of a card key returns, with the expanded
    card absent whatever it was before, the state of that key flipped and
    the state of every other key, and the rest of the pane, as it was. *)
Theorem toggleCollapse_clears_expandedCard (p : Pane) (key : CardKey.t) :
  exists p',
    toggleCollapse (CardKey.name key) p = Js.Returned p'
    /\ UiStore.expandedCard (uiStore p') = None
    /\ UiStore.collapsed (UiStore.viewCardStates (uiStore p') key)
       = negb (UiStore.collapsed (UiStore.viewCardStates (uiStore p) key))
    /\ (forall k, k <> key ->
          UiStore.viewCardStates (uiStore p') k
          = UiStore.viewCardStates (uiStore p) k)
    /\ exchange p' = exchange p
    /\ expandCompleted p' = expandCompleted p
    /\ animationFrames p' = animationFrames p.
Proof.
  unfold toggleCollapse. rewrite CardKey_ofName_name.
  eexists. split; [reflexivity |]. simpl.
  rewrite CardKey_eqb_refl.
  repeat split; try reflexivity.
  intros k Hk. rewrite (CardKey_eqb_neq Hk). reflexivity.
Qed.

(** C3, as the code has it. Expanding a key that is not expandable
    returns the pane as it was. Collapsing under a name that is no card
    key is no such thing. Under a name the card states inherit a value
    for, as every object does (['constructor'], ['toString'],
    ['__proto__'] and the like), the call returns, every card state as it
    was and no card expanded any more. Under any other name the card state
    read is [undefined], and reading its [collapsed] throws a TypeError
    before anything is written. *)
Theorem toggle_outside_domain (p : Pane) (key : CardKey.t) (name : Js.str)
    (Hkey : isExpandable key = false)
    (Hname : CardKey.ofName name = None) :
  toggleExpand key p = p
  /\ if Js.inheritedProperty name
     then toggleCollapse name p
          = Js.Returned
              (withUiStore (UiStore.setExpandedCard None (uiStore p)) p)
     else toggleCollapse name p
          = Js.Thrown (Js.TypeError (Js.lit "collapsed")).
Proof.
  split.
  - apply toggleExpand_not_expandable. exact Hkey.
  - unfold toggleCollapse. rewrite Hname.
    destruct (Js.inheritedProperty name); reflexivity.
Qed.

(** C2, as the code has it. Two calls of [toggleExpand] with the same key
    in a row: the expanded card is what it was exactly when the key is not
    expandable, or no card was expanded, or that very key was; the
    collapsed flag of the key is what it was exactly when the key is not
    expandable or the flag was [false] (for an expandable key the flag is
    [false] afterwards: an expansion writes [false] to it and nothing
    writes it back); the state of every other key is what it was, in every
    case. *)
Theorem toggleExpand_twice (p : Pane) (key : CardKey.t) :
  let p'' := toggleExpand key (toggleExpand key p) in
  (UiStore.expandedCard (uiStore p'') = UiStore.expandedCard (uiStore p)
   <-> isExpandable key = false
       \/ UiStore.expandedCard (uiStore p) = None
       \/ UiStore.expandedIs (uiStore p) key = true)
  /\ (UiStore.collapsed (UiStore.viewCardStates (uiStore p'') key)
      = UiStore.collapsed (UiStore.viewCardStates (uiStore p) key)
      <-> isExpandable key = false
          \/ UiStore.collapsed
               (UiStore.viewCardStates (uiStore p) key) = false)
  /\ (isExpandable key = true ->
      UiStore.collapsed (UiStore.viewCardStates (uiStore p'') key) = false)
  /\ (forall k, k <> key ->
        UiStore.viewCardStates (uiStore p'') k
        = UiStore.viewCardStates (uiStore p) k).
Proof.
  cbv zeta.
  destruct (isExpandable key) eqn:Hable.
  - (* an expandable key *)
    unfold isExpandable in Hable.
    destruct (Expandable.ofKey key) as [e|] eqn:He; [| discriminate].
    pose proof (Expandable_ofKey_some _ He) as Hk.
    destruct (UiStore.expandedIs (uiStore p) key) eqn:His.
    + (* expanded already: cleared, then set again *)
      rewrite (toggleExpand_expanded _ _ His).
      rewrite (@toggleExpand_expands _ key e); [| reflexivity | exact He].
      unfold UiStore.expandedIs in His.
      destruct (UiStore.expandedCard (uiStore p)) as [e'|] eqn:He';
        [| discriminate].
      apply CardKey_eqb_eq in His. rewrite <- Hk in His.
      assert (e' = e) by (destruct e, e'; simpl in His; congruence).
      subst e'. simpl. rewrite CardKey_eqb_refl. simpl.
      split; [split; auto |].
      split; [split; [intros H; right; congruence
                     | intros [H | H]; congruence] |].
      split; [reflexivity |].
      intros k Hne. rewrite (CardKey_eqb_neq Hne). reflexivity.
    + (* not expanded: set, then cleared *)
      rewrite (toggleExpand_expands _ _ His He).
      rewrite toggleExpand_expanded.
      2:{ unfold UiStore.expandedIs. simpl. rewrite Hk.
          apply CardKey_eqb_refl. }
      simpl. rewrite CardKey_eqb_refl. simpl.
      split; [split; [intros H; right; left; congruence
                     | intros [H | [H | H]]; congruence] |].
      split; [split; [intros H; right; congruence
                     | intros [H | H]; congruence] |].
      split; [reflexivity |].
      intros k Hne. rewrite (CardKey_eqb_neq Hne). reflexivity.
  - (* not expandable: nothing happens, twice *)
    rewrite !(toggleExpand_not_expandable _ _ Hable).
    split; [split; auto |].
    split; [split; auto |].
    split; [discriminate | reflexivity].
Qed.

(* ================================================================== *)
(** ** The deferred completion of an expansion                         *)
(* ================================================================== *)

Lemma runNextFrameCallback_cons (p : Pane) (cb : FrameCallback)
    (rest : list FrameCallback) :
  animationFrames p = cb :: rest ->
  expandCompleted (runNextFrameCallback p) = true
  /\ animationFrames (runNextFrameCallback p) = rest
  /\ uiStore (runNextFrameCallback p) = uiStore p.
Proof.
  unfold runNextFrameCallback. intros ->. destruct cb. simpl. auto.
Qed.

Lemma runNextFrameCallback_completed (p : Pane) :
  expandCompleted p = true -> expandCompleted (runNextFrameCallback p) = true.
Proof.
  unfold runNextFrameCallback. intros H.
  destruct (animationFrames p) as [|[] rest]; [assumption | reflexivity].
Qed.

Lemma completions_when_completed (n : nat) (p : Pane) :
  expandCompleted p = true -> completions n p = 0.
Proof.
  revert p. induction n as [|n IH]; intros p H; simpl; [reflexivity |].
  rewrite H. simpl. apply IH. apply runNextFrameCallback_completed. exact H.
Qed.

(** While an expansion is pending, the oldest outstanding callback is the
    one that completes it and the later ones find it completed. *)
Lemma completions_when_pending (p : Pane) :
  expandCompleted p = false ->
  animationFrames p <> [] ->
  completions (length (animationFrames p)) p = 1.
Proof.
  intros Hp Hq.
  destruct (animationFrames p) as [|cb rest] eqn:E; [congruence |].
  destruct (runNextFrameCallback_cons _ E) as [Hc _].
  simpl. rewrite Hp, Hc. simpl.
  rewrite completions_when_completed; [reflexivity | exact Hc].
Qed.

Lemma runCallbacks_all (n : nat) (p : Pane) :
  length (animationFrames p) = n ->
  animationFrames (runCallbacks n p) = []
  /\ uiStore (runCallbacks n p) = uiStore p
  /\ (0 < n -> expandCompleted (runCallbacks n p) = true).
Proof.
  revert p. induction n as [|n IH]; intros p Hlen; simpl.
  - split; [| split; [reflexivity | lia]].
    destruct (animationFrames p); [reflexivity | discriminate].
  - destruct (animationFrames p) as [|cb rest] eqn:E; [discriminate |].
    destruct (runNextFrameCallback_cons _ E) as [Hc [Hr Hu]].
    assert (Hlen' : length (animationFrames (runNextFrameCallback p)) = n)
      by (rewrite Hr; simpl in Hlen; lia).
    destruct (IH _ Hlen') as [H1 [H2 H3]].
    split; [exact H1 |]. split; [congruence |].
    intros _. destruct n as [|n'].
    + simpl. exact Hc.
    + apply H3. lia.
Qed.

(* ================================================================== *)
(** ** The WebSocket message list                                      *)
(* ================================================================== *)

(** With fewer than three segments there is no [urlParts[2]] to split. *)
Lemma renderWebSocketMessages_throws (p : Pane) (x : HttpExchange.t) :
  urlSegments x < 3 ->
  renderWebSocketMessages p x
  = ([], Js.Thrown (Js.TypeError (Js.lit "split"))).
Proof.
  unfold urlSegments, renderWebSocketMessages, Js.index. intros H.
  cbv zeta.
  destruct (nth_error (Js.split (HttpExchange.requestUrl x) Js.slash) 2)
    eqn:E; [| reflexivity].
  assert (nth_error (Js.split (HttpExchange.requestUrl x) Js.slash) 2 <> None)
    by congruence.
  apply nth_error_Some in H0. lia.
Qed.

(** With three or more, the card is built: its collapse toggle is the one
    of the [webSocketMessages] key and its [expanded] prop tells whether
    that key is the expanded one. *)
Lemma renderWebSocketMessages_returns (p : Pane) (x : HttpExchange.t) :
  3 <= urlSegments x ->
  exists props onExpand paid prefix,
    renderWebSocketMessages p x
    = ([], Js.Returned (StreamMessageListCard props onExpand paid prefix))
    /\ onCollapseToggled props
       = ToggleCollapse (CardKey.name CardKey.webSocketMessages)
    /\ expanded props
       = UiStore.expandedIs (uiStore p) CardKey.webSocketMessages.
Proof.
  unfold urlSegments, renderWebSocketMessages, Js.index. intros H.
  cbv zeta.
  destruct (nth_error (Js.split (HttpExchange.requestUrl x) Js.slash) 2)
    eqn:E.
  - do 4 eexists. split; [reflexivity |]. split; reflexivity.
  - apply nth_error_None in E. lia.
Qed.

(** C10. There is an accepted WebSocket exchange, its request URL of
    fewer than three '/'-separated segments, for which building the
    message list throws instead of returning a card, in every pane; and so
    does rendering the pane of that exchange, with the list expanded or
    not. *)
Theorem webSocketMessages_partial_on_urls :
  exists x : HttpExchange.t,
    HttpExchange.isWebSocket x = true
    /\ HttpExchange.wasAccepted x = true
    /\ urlSegments x < 3
    /\ (forall p, exists e, renderWebSocketMessages p x = ([], Js.Thrown e))
    /\ (forall startCase (ErrorType : Type)
               (tagsToErrorType : list Js.str -> option ErrorType)
               states paid completed frames,
          let pane expandedCard :=
            {| exchange := x;
               uiStore := {| UiStore.expandedCard := expandedCard;
                             UiStore.viewCardStates := states |};
               isPaidUser := paid; expandCompleted := completed;
               animationFrames := frames |} in
          (exists e, render startCase tagsToErrorType (pane None)
                     = ([], Js.Thrown e))
          /\ (exists e,
                render startCase tagsToErrorType
                  (pane (Some Expandable.webSocketMessages))
                = ([], Js.Thrown e))).
Proof.
  exists (Sample.webSocket (Js.lit "example.com") (HttpExchange.Completed 101)).
  split; [reflexivity |]. split; [reflexivity |].
  split; [vm_compute; lia |].
  split.
  - intros p. eexists. apply renderWebSocketMessages_throws. vm_compute. lia.
  - intros. split; eexists; reflexivity.
Qed.

(* ================================================================== *)
(** ** The expanded view                                               *)
(* ================================================================== *)

Section Views.

Variable startCase : Js.str -> Js.str.
Variable ErrorType : Type.
Variable tagsToErrorType : list Js.str -> option ErrorType.

(** With a card expanded, [render] is the header and what
    [renderExpandedCard] gives. *)
Lemma render_expanded (p : Pane) (e : Expandable.t) :
  UiStore.expandedCard (uiStore p) = Some e ->
  render startCase tagsToErrorType p
  = (card <- renderExpandedCard p e (exchange p)
               (if isPaidUser p then HttpExchange.api (exchange p) else None) ;;
     Js.ret (ExpandedContentContainer (expandCompleted p)
               (renderHeaderCard tagsToErrorType p (exchange p)) card)).
Proof. unfold render. intros ->. reflexivity. Qed.

(** With none expanded and no breakpoint pending, it is the header, the
    normal cards and the footer. *)
Lemma render_normal (p : Pane) :
  UiStore.expandedCard (uiStore p) = None ->
  isNormal (exchange p) ->
  exists apiName,
    render startCase tagsToErrorType p
    = (cards <- renderNormalCards p (exchange p) apiName
                  (if isPaidUser p then HttpExchange.api (exchange p)
                   else None) ;;
       Js.ret (OuterContainer
                 (renderHeaderCard tagsToErrorType p (exchange p))
                 cards (isPaidUser p)))
    /\ (noApiMatch (exchange p) -> apiName = None).
Proof.
  unfold render, isNormal, noApiMatch. intros -> [-> ->]. simpl.
  eexists. split; [reflexivity |].
  destruct (HttpExchange.api (exchange p)) as [a|]; [| reflexivity].
  intros ->. reflexivity.
Qed.

(** The expanded card of a pane, in every case. When the exchange cannot
    show it (the response body of an exchange that is neither successful
    nor at a response breakpoint, the messages of one that is not an
    accepted WebSocket), [render] reports once to the error collector and
    returns the container with the header and no card. When it can,
    [render] reports nothing and returns the container with exactly the
    card of that key, flagged expanded; but for the messages under a
    request URL of fewer than three segments, where nothing is returned:
    the third segment is read unguarded, and [split] is called on
    [undefined]. *)
Lemma render_expanded_card (p : Pane) (e : Expandable.t)
    (Hexpanded : UiStore.expandedCard (uiStore p) = Some e) :
  if legalExpansion e (exchange p)
  then
    if Expandable.eqb e Expandable.webSocketMessages
       && (urlSegments (exchange p) <? 3)
    then
      render startCase tagsToErrorType p
      = ([], Js.Thrown (Js.TypeError (Js.lit "split")))
    else
      exists card props,
        render startCase tagsToErrorType p
        = ([], Js.Returned
                 (ExpandedContentContainer (expandCompleted p)
                    (renderHeaderCard tagsToErrorType p (exchange p))
                    (Some card)))
        /\ baseProps card = Some props
        /\ expanded props = true
        /\ panelName card = CardKey.name (Expandable.key e)
  else
    render startCase tagsToErrorType p
    = ([Js.lit "Expanded " ++ CardKey.name (Expandable.key e)
        ++ Js.lit ", but can't show anything"],
       Js.Returned
         (ExpandedContentContainer (expandCompleted p)
            (renderHeaderCard tagsToErrorType p (exchange p)) None)).
Proof.
  rewrite (render_expanded _ Hexpanded).
  assert (His : UiStore.expandedIs (uiStore p) (Expandable.key e) = true).
  { unfold UiStore.expandedIs. rewrite Hexpanded. apply CardKey_eqb_refl. }
  unfold renderExpandedCard.
  destruct e; simpl Expandable.eqb; simpl legalExpansion; cbv iota.
  - (* requestBody *)
    unfold renderRequestBody.
    destruct (HttpExchange.requestBreakpoint (exchange p));
      do 2 eexists; (split; [reflexivity |]);
      (split; [reflexivity |]); (split; [exact His | reflexivity]).
  - (* responseBody *)
    simpl andb.
    destruct (HttpExchange.isSuccessfulExchange (exchange p)
              || Js.defined (HttpExchange.responseBreakpoint (exchange p))).
    + unfold renderResponseBody.
      destruct (HttpExchange.responseBreakpoint (exchange p));
        do 2 eexists; (split; [reflexivity |]);
        (split; [reflexivity |]); (split; [exact His | reflexivity]).
    + reflexivity.
  - (* webSocketMessages *)
    simpl andb.
    destruct (HttpExchange.isWebSocket (exchange p)
              && HttpExchange.wasAccepted (exchange p)).
    + destruct (Nat.ltb_spec (urlSegments (exchange p)) 3) as [Hshort | Hurl].
      * rewrite (renderWebSocketMessages_throws p (exchange p) Hshort).
        reflexivity.
      * destruct (renderWebSocketMessages_returns p (exchange p) Hurl)
          as [props [onExpand [paid [prefix [Hr [Hc He]]]]]].
        rewrite Hr. do 2 eexists. split; [reflexivity |].
        split; [reflexivity |].
        split; [rewrite He; exact His |].
        unfold panelName. simpl. rewrite Hc. reflexivity.
    + reflexivity.
Qed.

(* ================================================================== *)
(** ** The normal cards                                                *)
(* ================================================================== *)

(** C1. A pane with no card expanded, of an exchange with no breakpoint
    pending, a request body, a completed response with a body, no
    WebSocket and no matched API operation, renders without a report: the
    header card if there is one, the footer, and between them exactly the
    cards request, requestBody, response, responseBody, the divider,
    performance and export, in this order. This holds on the paid tier
    and off it. *)
Theorem render_completed_exchange_cards (p : Pane) (statusCode : N)
    (Hnormal : isNormal (exchange p))
    (Hrequest : HttpExchange.hasRequestBody (exchange p) = true)
    (Hresponse : HttpExchange.response (exchange p)
                 = HttpExchange.Completed statusCode)
    (Hbody : HttpExchange.hasResponseBody (exchange p) = true)
    (Hsocket : HttpExchange.isWebSocket (exchange p) = false)
    (Hapi : noApiMatch (exchange p))
    (Hexpanded : UiStore.expandedCard (uiStore p) = None) :
  exists cards,
    render startCase tagsToErrorType p
    = ([], Js.Returned
             (OuterContainer
                (renderHeaderCard tagsToErrorType p (exchange p))
                cards (isPaidUser p)))
    /\ List.map panelName (mounted cards)
       = [Js.lit "request"; Js.lit "requestBody"; Js.lit "response";
          Js.lit "responseBody"; Js.lit "divider"; Js.lit "performance";
          Js.lit "export"].
Proof.
  destruct (render_normal p Hexpanded Hnormal) as [apiName [Hr Hname]].
  rewrite Hr, (Hname Hapi). clear Hr Hname.
  destruct Hnormal as [Hreq Hres].
  unfold renderNormalCards, renderRequestBody, renderResponseBody.
  rewrite Hrequest, Hresponse, Hbody, Hsocket, Hreq, Hres.
  eexists. split; reflexivity.
Qed.

Lemma mounted_app (a b : list (option Element)) :
  mounted (a ++ b) = mounted a ++ mounted b.
Proof.
  induction a as [|[el|] a IH]; simpl; rewrite ?IH; reflexivity.
Qed.

(** Cards whose panels are all among [names] hold no panel outside. *)
Lemma panelName_not_among (names : list Js.str) (cards : list Element)
    (x : Js.str) :
  Forall (fun el => In (panelName el) names) cards ->
  ~ In x names -> ~ In x (List.map panelName cards).
Proof.
  intros Hall Hx Hin. apply in_map_iff in Hin.
  destruct Hin as [el [Hn Hel]].
  rewrite Forall_forall in Hall. specialize (Hall _ Hel).
  rewrite Hn in Hall. contradiction.
Qed.

(** Closes [~ In x names] and the like on literal names. *)
Ltac names_differ :=
  let H := fresh in
  intros H; vm_compute in H;
  repeat match type of H with
         | _ \/ _ => destruct H as [H | H]
         end;
  solve [discriminate H | contradiction].

(** The response slot of an aborted exchange, wherever the cards are
    built. A pane with no card expanded, of an exchange with no breakpoint
    pending whose response is aborted, renders the aborted notice where
    the response card goes: after the api, request and requestBody cards
    that are there and before the cards of the WebSocket or the divider,
    performance and export; and no responseBody card, whether the exchange
    has a response body or not. For an accepted WebSocket the cards are
    built when the request URL has its third segment. *)
Lemma render_aborted_response (p : Pane)
    (Hnormal : isNormal (exchange p))
    (Haborted : HttpExchange.response (exchange p) = HttpExchange.aborted)
    (Hexpanded : UiStore.expandedCard (uiStore p) = None)
    (Hurl : showsMessages (exchange p) = true -> 3 <= urlSegments (exchange p)) :
  exists cards before after,
    render startCase tagsToErrorType p
    = ([], Js.Returned
             (OuterContainer
                (renderHeaderCard tagsToErrorType p (exchange p))
                cards (isPaidUser p)))
    /\ mounted cards
       = before
         ++ [AbortedResponseCard (cardProps p CardKey.response) left]
         ++ after
    /\ Forall (fun el => In (panelName el)
                           [Js.lit "api"; Js.lit "request";
                            Js.lit "requestBody"]) before
    /\ Forall (fun el => In (panelName el)
                           [Js.lit "webSocketMessages";
                            Js.lit "webSocketClose"; Js.lit "divider";
                            Js.lit "performance"; Js.lit "export"]) after
    /\ ~ In (Js.lit "responseBody") (List.map panelName (mounted cards)).
Proof.
  destruct (render_normal p Hexpanded Hnormal) as [apiName [Hr _]].
  rewrite Hr. clear Hr.
  destruct Hnormal as [Hreq Hres].
  unfold renderNormalCards. rewrite Haborted. cbv zeta.
  set (paidApi := if isPaidUser p then HttpExchange.api (exchange p) else None).
  set (head := if HttpExchange.hasRequestBody (exchange p) then _ else _).
  set (notice := AbortedResponseCard (cardProps p CardKey.response) left).
  assert (Hall : Forall (fun el => In (panelName el)
                                     [Js.lit "api"; Js.lit "request";
                                      Js.lit "requestBody"]) (mounted head)).
  { subst head. unfold renderApiCard, renderRequestBody, push. rewrite Hreq.
    destruct apiName as [[|c n]|], (isPaidUser p),
      (HttpExchange.hasRequestBody (exchange p)); simpl;
      repeat (apply Forall_cons; [simpl; auto 10 |]); apply Forall_nil. }
  assert (Hno : forall after,
             Forall (fun el => In (panelName el)
                                 [Js.lit "webSocketMessages";
                                  Js.lit "webSocketClose"; Js.lit "divider";
                                  Js.lit "performance"; Js.lit "export"]) after ->
             ~ In (Js.lit "responseBody")
                 (List.map panelName (mounted head ++ [notice] ++ after))).
  { intros after Hafter. rewrite !map_app, !in_app_iff.
    intros [H | [H | H]].
    - revert H. apply (@panelName_not_among _ _ _ Hall). names_differ.
    - revert H. names_differ.
    - revert H. apply (@panelName_not_among _ _ _ Hafter). names_differ. }
  unfold showsMessages in Hurl.
  destruct (HttpExchange.isWebSocket (exchange p)
            && HttpExchange.wasAccepted (exchange p)) eqn:Hws.
  - destruct (renderWebSocketMessages_returns p (exchange p) (Hurl eq_refl))
      as [props [onExpand [paid [prefix [Hr [Hc _]]]]]].
    rewrite Hr.
    set (messages := StreamMessageListCard props onExpand paid prefix).
    assert (Hm : panelName messages = Js.lit "webSocketMessages")
      by (unfold panelName; simpl; rewrite Hc; reflexivity).
    eexists. exists (mounted head).
    exists (messages
            :: match HttpExchange.closeState (exchange p) with
               | Some closeState =>
                   [WebSocketCloseCard (cardProps p CardKey.webSocketClose)
                      closeState]
               | None => []
               end).
    assert (Hafter : Forall (fun el => In (panelName el)
                                 [Js.lit "webSocketMessages";
                                  Js.lit "webSocketClose"; Js.lit "divider";
                                  Js.lit "performance"; Js.lit "export"])
               (messages
                :: match HttpExchange.closeState (exchange p) with
                   | Some closeState =>
                       [WebSocketCloseCard
                          (cardProps p CardKey.webSocketClose) closeState]
                   | None => []
                   end)).
    { apply Forall_cons; [rewrite Hm; simpl; auto |].
      destruct (HttpExchange.closeState (exchange p));
        repeat (apply Forall_cons; [simpl; auto 10 |]); apply Forall_nil. }
    split; [reflexivity |].
    split.
    + unfold push.
      destruct (HttpExchange.closeState (exchange p));
        rewrite !mounted_app, <- ?app_assoc; reflexivity.
    + split; [exact Hall |]. split; [exact Hafter |].
      unfold push.
      destruct (HttpExchange.closeState (exchange p));
        rewrite !mounted_app, <- ?app_assoc; apply (Hno _ Hafter).
  - set (after := [CardDivider;
                   HttpPerformanceCard (cardProps p CardKey.performance)
                     (exchange p);
                   HttpExportCard (cardProps p CardKey.export) (exchange p)]).
    assert (Hafter : Forall (fun el => In (panelName el)
                                 [Js.lit "webSocketMessages";
                                  Js.lit "webSocketClose"; Js.lit "divider";
                                  Js.lit "performance"; Js.lit "export"]) after).
    { subst after.
      repeat (apply Forall_cons; [simpl; auto 10 |]); apply Forall_nil. }
    eexists. exists (mounted head), after.
    split; [reflexivity |].
    unfold push. rewrite !mounted_app, <- !app_assoc.
    split; [reflexivity |]. split; [exact Hall |]. split; [exact Hafter |].
    apply (Hno _ Hafter).
Qed.

End Views.

(* ================================================================== *)
(** ** The statements at sample panes                                  *)
(* ================================================================== *)

(** A completed exchange with both bodies (and two error tags, so with an
    error header above the cards). *)
Lemma render_completed_exchange_cards_sample :
  let p := Sample.pane Sample.completed in
  isNormal (exchange p)
  /\ HttpExchange.response (exchange p) = HttpExchange.Completed 200
  /\ exists cards,
       render Sample.startCase Sample.tagsToErrorType p
       = ([], Js.Returned
                (OuterContainer
                   (renderHeaderCard Sample.tagsToErrorType p (exchange p))
                   cards (isPaidUser p)))
       /\ List.map panelName (mounted cards)
          = [Js.lit "request"; Js.lit "requestBody"; Js.lit "response";
             Js.lit "responseBody"; Js.lit "divider"; Js.lit "performance";
             Js.lit "export"].
Proof.
  cbv zeta.
  split; [split; reflexivity |]. split; [reflexivity |].
  apply (@render_completed_exchange_cards Sample.startCase _
           Sample.tagsToErrorType (Sample.pane Sample.completed) 200).
  - split; reflexivity.
  - reflexivity.
  - reflexivity.
  - reflexivity.
  - reflexivity.
  - simpl. exact I.
  - reflexivity.
Defined.

(** From the initial state, the request body expanded and taken back. *)
Lemma toggleExpand_twice_sample :
  let p := Sample.pane Sample.completed in
  let p'' := toggleExpand CardKey.requestBody
               (toggleExpand CardKey.requestBody p) in
  UiStore.expandedCard (uiStore p) = None
  /\ UiStore.collapsed (UiStore.viewCardStates (uiStore p) CardKey.requestBody)
     = false
  /\ UiStore.expandedCard (uiStore p'') = UiStore.expandedCard (uiStore p)
  /\ UiStore.collapsed
       (UiStore.viewCardStates (uiStore p'') CardKey.requestBody)
     = UiStore.collapsed
         (UiStore.viewCardStates (uiStore p) CardKey.requestBody).
Proof.
  cbv zeta. split; [reflexivity |]. split; [reflexivity |].
  destruct (toggleExpand_twice (Sample.pane Sample.completed)
              CardKey.requestBody) as [H1 [H2 _]].
  split.
  - apply H1. right. left. reflexivity.
  - apply H2. right. reflexivity.
Defined.

(** C2 does not hold as stated: with the request body card collapsed and
    the response body expanded, two calls of [toggleExpand('requestBody')]
    leave no card expanded, where the response body was, and the request
    body card not collapsed, where it was. *)
Lemma toggleExpand_twice_not_restoring :
  let p := Sample.requestBodyCollapsed in
  let p'' := toggleExpand CardKey.requestBody
               (toggleExpand CardKey.requestBody p) in
  UiStore.expandedCard (uiStore p) = Some Expandable.responseBody
  /\ UiStore.expandedCard (uiStore p'') = None
  /\ UiStore.collapsed (UiStore.viewCardStates (uiStore p) CardKey.requestBody)
     = true
  /\ UiStore.collapsed
       (UiStore.viewCardStates (uiStore p'') CardKey.requestBody)
     = false.
Proof. cbv zeta. repeat split; reflexivity. Qed.

(** Expanding the api card, and collapsing a card there is not. *)
Lemma toggle_outside_domain_sample :
  let p := Sample.pane Sample.completed in
  isExpandable CardKey.api = false
  /\ CardKey.ofName (Js.lit "timeline") = None
  /\ toggleExpand CardKey.api p = p
  /\ toggleCollapse (Js.lit "timeline") p
     = Js.Thrown (Js.TypeError (Js.lit "collapsed")).
Proof.
  cbv zeta. split; [reflexivity |]. split; [reflexivity |].
  apply (@toggle_outside_domain (Sample.pane Sample.completed)
           CardKey.api (Js.lit "timeline")); reflexivity.
Defined.

(** C3 does not hold as stated: [toggleCollapse] under a name that is no
    card key either returns no pane, changed or not (['timeline']: it
    throws), or returns a pane that is not the one it was given
    (['constructor'], with the response body expanded: no card is
    expanded afterwards). *)
Lemma toggleCollapse_unknown_key_throws :
  let p := Sample.pane Sample.completed in
  let q := Sample.expandedPane Expandable.responseBody Sample.completed in
  (CardKey.ofName (Js.lit "timeline") = None
   /\ toggleCollapse (Js.lit "timeline") p
      = Js.Thrown (Js.TypeError (Js.lit "collapsed"))
   /\ ~ (exists p', toggleCollapse (Js.lit "timeline") p = Js.Returned p'))
  /\ (CardKey.ofName (Js.lit "constructor") = None
      /\ UiStore.expandedCard (uiStore q) = Some Expandable.responseBody
      /\ exists q',
           toggleCollapse (Js.lit "constructor") q = Js.Returned q'
           /\ UiStore.expandedCard (uiStore q') = None
           /\ q' <> q).
Proof.
  cbv zeta. split.
  - split; [reflexivity |]. split; [reflexivity |].
    intros [p' H]. discriminate H.
  - split; [reflexivity |]. split; [reflexivity |].
    eexists. split; [reflexivity |]. split; [reflexivity |].
    intros H. apply (f_equal (fun x => UiStore.expandedCard (uiStore x))) in H.
    discriminate H.
Qed.

(** The messages of an accepted WebSocket, expanded. *)
Lemma render_expanded_card_sample :
  let x := Sample.webSocket (Js.lit "wss://example.com:8080/chat")
             (HttpExchange.Completed 101) in
  let p := Sample.expandedPane Expandable.webSocketMessages x in
  exists card props,
    render Sample.startCase Sample.tagsToErrorType p
    = ([], Js.Returned
             (ExpandedContentContainer (expandCompleted p)
                (renderHeaderCard Sample.tagsToErrorType p (exchange p))
                (Some card)))
    /\ baseProps card = Some props
    /\ expanded props = true
    /\ panelName card = Js.lit "webSocketMessages".
Proof.
  cbv zeta.
  apply (@render_expanded_card Sample.startCase _ Sample.tagsToErrorType
           (Sample.expandedPane Expandable.webSocketMessages
              (Sample.webSocket (Js.lit "wss://example.com:8080/chat")
                 (HttpExchange.Completed 101)))
           Expandable.webSocketMessages).
  reflexivity.
Defined.

(** C4, at the input where the code departs from it. The messages of an
    accepted WebSocket are a legal expansion, so the view is to hold
    exactly the card of the messages; with the request URL
    ['example.com'], of one segment, [render] neither returns a card nor
    reports: it throws, [split] being called on the third segment, which
    there is not. The length of the segments is tested one line below,
    for the port, and not here. *)
Theorem render_expanded_messages_throws :
  let x := Sample.webSocket (Js.lit "example.com")
             (HttpExchange.Completed 101) in
  let p := Sample.expandedPane Expandable.webSocketMessages x in
  UiStore.expandedCard (uiStore p) = Some Expandable.webSocketMessages
  /\ legalExpansion Expandable.webSocketMessages (exchange p) = true
  /\ render Sample.startCase Sample.tagsToErrorType p
     = ([], Js.Thrown (Js.TypeError (Js.lit "split")))
  /\ ~ (exists log v,
          render Sample.startCase Sample.tagsToErrorType p
          = (log, Js.Returned v)).
Proof.
  cbv zeta. split; [reflexivity |]. split; [reflexivity |].
  split; [reflexivity |].
  intros [log [v H]]. discriminate H.
Qed.

(** An aborted request with a body, no WebSocket. *)
Lemma render_aborted_response_sample :
  let x := HttpExchange.setTags []
             {| HttpExchange.id := Js.lit "e3";
                HttpExchange.requestUrl := Js.lit "https://example.com/upload";
                HttpExchange.response := HttpExchange.aborted;
                HttpExchange.requestBreakpoint := None;
                HttpExchange.responseBreakpoint := None;
                HttpExchange.tags := [];
                HttpExchange.api := None;
                HttpExchange.closeState := None;
                HttpExchange.hasRequestBody := true;
                HttpExchange.hasResponseBody := true;
                HttpExchange.isWebSocket := false;
                HttpExchange.wasAccepted := false;
                HttpExchange.isSuccessfulExchange := false |} in
  let p := Sample.pane x in
  isNormal x
  /\ HttpExchange.response x = HttpExchange.aborted
  /\ HttpExchange.hasResponseBody x = true
  /\ exists cards before after,
       render Sample.startCase Sample.tagsToErrorType p
       = ([], Js.Returned
                (OuterContainer
                   (renderHeaderCard Sample.tagsToErrorType p (exchange p))
                   cards (isPaidUser p)))
       /\ mounted cards
          = before
            ++ [AbortedResponseCard (cardProps p CardKey.response) left]
            ++ after
       /\ Forall (fun el => In (panelName el)
                              [Js.lit "api"; Js.lit "request";
                               Js.lit "requestBody"]) before
       /\ Forall (fun el => In (panelName el)
                              [Js.lit "webSocketMessages";
                               Js.lit "webSocketClose"; Js.lit "divider";
                               Js.lit "performance"; Js.lit "export"]) after
       /\ ~ In (Js.lit "responseBody") (List.map panelName (mounted cards)).
Proof.
  cbv zeta. split; [split; reflexivity |]. split; [reflexivity |].
  split; [reflexivity |].
  apply (@render_aborted_response Sample.startCase _ Sample.tagsToErrorType).
  - split; reflexivity.
  - reflexivity.
  - reflexivity.
  - intros H. discriminate H.
Defined.

(** C7, at the input where the code departs from it. A normal exchange
    whose response is aborted is to show the aborted notice in the
    response slot; for an accepted WebSocket with the request URL
    ['example.com'], of one segment, and no card expanded, [render]
    returns no view, so no aborted notice either: it throws while it
    builds the card of the messages, [split] being called on the third
    segment, which there is not. *)
Theorem render_aborted_webSocket_throws :
  let x := Sample.webSocket (Js.lit "example.com") HttpExchange.aborted in
  let p := Sample.pane x in
  isNormal x
  /\ HttpExchange.response x = HttpExchange.aborted
  /\ UiStore.expandedCard (uiStore p) = None
  /\ render Sample.startCase Sample.tagsToErrorType p
     = ([], Js.Thrown (Js.TypeError (Js.lit "split")))
  /\ ~ (exists log v,
          render Sample.startCase Sample.tagsToErrorType p
          = (log, Js.Returned v)).
Proof.
  cbv zeta. split; [split; reflexivity |]. split; [reflexivity |].
  split; [reflexivity |]. split; [reflexivity |].
  intros [log [v H]]. discriminate H.
Qed.

(** Scenario F: both error tags go at once, the other tag stays. *)
Example ignoreError_sample :
  HttpExchange.tags (exchange (ignoreError (Sample.pane Sample.completed)))
  = [Js.lit "ok"].
Proof. reflexivity. Qed.

(** Scenario D: a name of 90 code units is cut to 72 and gets the
    ellipsis; white space the cut leaves at the end goes first. *)
Example makeFriendlyApiName_long :
  let name :=
    Js.lit "U.S. EPA Enforcement and Compliance History Online (ECHO) - Clean Air Act Reports and more" in
  length name = 90
  /\ makeFriendlyApiName Sample.startCase name
     = Js.lit "U.S. EPA Enforcement and Compliance History Online (ECHO) - Clean Air Ac"
       ++ [Js.ellipsis].
Proof. cbv zeta. split; reflexivity. Qed.

Example makeFriendlyApiName_trims :
  makeFriendlyApiName Sample.startCase
    (Js.lit "A name that is long enough to be cut and has a space at the cut point:  72 and more")
  = Js.lit "A name that is long enough to be cut and has a space at the cut point:"
    ++ [Js.ellipsis].
Proof. reflexivity. Qed.

(** Scenario C: an accepted WebSocket ends with its messages and, when it
    has one, its close state. *)
Example render_webSocket_sample :
  exists header cards,
    render Sample.startCase Sample.tagsToErrorType
      (Sample.pane (Sample.webSocket (Js.lit "wss://example.com:8080/chat")
                      (HttpExchange.Completed 101)))
    = ([], Js.Returned (OuterContainer header cards true))
    /\ List.map panelName (mounted cards)
       = [Js.lit "request"; Js.lit "response"; Js.lit "responseBody";
          Js.lit "webSocketMessages"].
Proof. do 2 eexists. split; reflexivity. Qed.

(* ================================================================== *)
(** ** The props of the cards                                          *)
(* ================================================================== *)

(** X1. When the props of one card say it is expanded, no other card's
    do, and no card's props say it is collapsed, whatever the stored card
    states are. *)
Theorem cardProps_expanded_exclusive (p : Pane) (k1 k2 : CardKey.t)
    (Hexpanded : expanded (cardProps p k1) = true) :
  (expanded (cardProps p k2) = true <-> k2 = k1)
  /\ collapsed (cardProps p k2) = false.
Proof.
  unfold cardProps in *. simpl in *.
  unfold UiStore.expandedIs in *.
  destruct (UiStore.expandedCard (uiStore p)) as [e|]; [| discriminate].
  apply CardKey_eqb_eq in Hexpanded. subst k1. simpl.
  split; [| apply andb_false_r].
  rewrite CardKey_eqb_eq. split; congruence.
Qed.

(* ================================================================== *)
(** ** What the events keep                                            *)
(* ================================================================== *)

Lemma toggleCollapse_returns (p : Pane) (name : Js.str) (k : CardKey.t) :
  CardKey.ofName name = Some k ->
  toggleCollapse name p
  = Js.Returned
      (withUiStore
         (UiStore.setExpandedCard None
            (UiStore.setCollapsed k
               (negb (UiStore.collapsed
                        (UiStore.viewCardStates (uiStore p) k)))
               (uiStore p))) p).
Proof. unfold toggleCollapse. intros ->. reflexivity. Qed.

(** [toggleExpand], whichever way it goes, leaves the pane as it was but
    for the three things it may write. *)
Lemma toggleExpand_cases (p : Pane) (key : CardKey.t) :
  toggleExpand key p = p
  \/ toggleExpand key p
     = withUiStore (UiStore.setExpandedCard None (uiStore p)) p
  \/ exists e,
       Expandable.ofKey key = Some e
       /\ toggleExpand key p
          = requestAnimationFrame CompleteExpand
              (withExpandCompleted false
                 (withUiStore
                    (UiStore.setExpandedCard (Some e)
                       (UiStore.setCollapsed key false (uiStore p))) p)).
Proof.
  destruct (UiStore.expandedIs (uiStore p) key) eqn:His.
  - right. left. apply toggleExpand_expanded. exact His.
  - destruct (Expandable.ofKey key) as [e|] eqn:He.
    + right. right. exists e. split; [reflexivity |].
      apply toggleExpand_expands; assumption.
    + left. apply toggleExpand_not_expandable.
      unfold isExpandable. rewrite He. reflexivity.
Qed.

Lemma step_cases (ev : Event) (p : Pane) :
  step ev p = p
  \/ step ev p = ignoreError p
  \/ step ev p = animationFrame p
  \/ (exists k,
        step ev p
        = withUiStore
            (UiStore.setExpandedCard None
               (UiStore.setCollapsed k
                  (negb (UiStore.collapsed
                           (UiStore.viewCardStates (uiStore p) k)))
                  (uiStore p))) p)
  \/ step ev p = withUiStore (UiStore.setExpandedCard None (uiStore p)) p
  \/ exists k e,
       Expandable.ofKey k = Some e
       /\ step ev p
          = requestAnimationFrame CompleteExpand
              (withExpandCompleted false
                 (withUiStore
                    (UiStore.setExpandedCard (Some e)
                       (UiStore.setCollapsed k false (uiStore p))) p)).
Proof.
  destruct ev as [[name | key] | |]; simpl.
  - destruct (CardKey.ofName name) as [k|] eqn:Hk.
    + rewrite (toggleCollapse_returns p _ Hk). eauto 6.
    + unfold toggleCollapse. rewrite Hk.
      destruct (Js.inheritedProperty name); auto 10.
  - destruct (toggleExpand_cases p key) as [H | [H | [e [He H]]]];
      rewrite H; eauto 10.
  - auto.
  - auto.
Qed.

(** An animation frame leaves everything but the expansion flag and the
    outstanding callbacks. *)
Lemma runCallbacks_frame (n : nat) (p : Pane) :
  exchange (runCallbacks n p) = exchange p
  /\ uiStore (runCallbacks n p) = uiStore p
  /\ isPaidUser (runCallbacks n p) = isPaidUser p.
Proof.
  revert p. induction n as [|n IH]; intros p; simpl; [auto |].
  destruct (IH (runNextFrameCallback p)) as [H1 [H2 H3]].
  rewrite H1, H2, H3. unfold runNextFrameCallback.
  destruct (animationFrames p) as [|[] rest]; auto.
Qed.

(** After an animation frame nothing is outstanding, and the expansion is
    completed if a callback was outstanding or it was completed before. *)
Lemma animationFrame_completes (p : Pane) :
  animationFrames (animationFrame p) = []
  /\ (animationFrames p <> [] \/ expandCompleted p = true ->
      expandCompleted (animationFrame p) = true).
Proof.
  unfold animationFrame.
  destruct (@runCallbacks_all (length (animationFrames p)) p eq_refl)
    as [H1 [_ H3]].
  split; [exact H1 |].
  intros [Hq | Hc].
  - apply H3. destruct (animationFrames p); [congruence | simpl; lia].
  - destruct (animationFrames p) as [|cb rest] eqn:E.
    + simpl. exact Hc.
    + apply H3. simpl. lia.
Qed.

(** Outside an animation frame no callback runs: a pending expansion
    stays pending, and the outstanding callbacks stay outstanding, more
    of them behind them at most. *)
Lemma step_outside_frame (ev : Event) (p : Pane) :
  ev <> AnimationFrame ->
  (expandCompleted p = false -> expandCompleted (step ev p) = false)
  /\ exists requested,
       animationFrames (step ev p) = animationFrames p ++ requested.
Proof.
  intros Hev. destruct ev as [[name | key] | |]; [| | | congruence].
  - simpl. unfold toggleCollapse.
    destruct (CardKey.ofName name) as [k|];
      [| destruct (Js.inheritedProperty name)]; simpl;
      (split; [auto | exists []; rewrite app_nil_r; reflexivity]).
  - simpl.
    destruct (toggleExpand_cases p key) as [H | [H | [e [He H]]]];
      rewrite H; simpl.
    + split; [auto | exists []; rewrite app_nil_r; reflexivity].
    + split; [auto | exists []; rewrite app_nil_r; reflexivity].
    + split; [reflexivity | exists [CompleteExpand]; reflexivity].
  - simpl. unfold ignoreError. simpl.
    split; [auto | exists []; rewrite app_nil_r; reflexivity].
Qed.

Lemma run_outside_frames (evs : list Event) (p : Pane) :
  Forall (fun ev => ev <> AnimationFrame) evs ->
  (expandCompleted p = false -> expandCompleted (run evs p) = false)
  /\ exists requested,
       animationFrames (run evs p) = animationFrames p ++ requested.
Proof.
  revert p. induction evs as [|ev evs IH]; intros p Hevs; simpl.
  - split; [auto | exists []; rewrite app_nil_r; reflexivity].
  - inversion Hevs as [|? ? Hev Hrest]; subst.
    destruct (step_outside_frame p Hev) as [Hc [r1 Hr1]].
    destruct (IH (step ev p) Hrest) as [Hc' [r2 Hr2]].
    split; [auto |].
    exists (r1 ++ r2). rewrite Hr2, Hr1, app_assoc. reflexivity.
Qed.

(** C9. A first expansion, then, before any animation frame has run, so
    with the first one pending still, a second expansion, whatever else
    the cards and the error header do in between and after: up to the next
    animation frame the expansion stays pending, the callbacks of both
    expansions outstanding; of all the callbacks outstanding then, the
    stale ones of earlier expansions among them, exactly one turns the
    pending expansion into a completed one, in that frame; and after that
    frame the expansion is completed, the expanded card is the one it was,
    and no callback is left to complete anything again. *)
Theorem expansions_settle_once_per_frame
    (p : Pane) (k1 k2 : CardKey.t) (between1 between2 : list Event)
    (Hfirst : UiStore.expandedIs (uiStore p) k1 = false
              /\ isExpandable k1 = true)
    (Hquiet1 : Forall (fun ev => ev <> AnimationFrame) between1)
    (Hsecond : UiStore.expandedIs
                 (uiStore (run between1 (toggleExpand k1 p))) k2 = false
               /\ isExpandable k2 = true)
    (Hquiet2 : Forall (fun ev => ev <> AnimationFrame) between2) :
  let p1 := run between1 (toggleExpand k1 p) in
  let p2 := run between2 (toggleExpand k2 p1) in
  expandCompleted p1 = false
  /\ expandCompleted p2 = false
  /\ (exists requested,
        animationFrames p2
        = animationFrames p ++ CompleteExpand :: requested
        /\ In CompleteExpand requested)
  /\ completions (length (animationFrames p2)) p2 = 1
  /\ expandCompleted (animationFrame p2) = true
  /\ animationFrames (animationFrame p2) = []
  /\ UiStore.expandedCard (uiStore (animationFrame p2))
     = UiStore.expandedCard (uiStore p2).
Proof.
  cbv zeta.
  destruct Hfirst as [Hnot1 Hk1]. destruct Hsecond as [Hnot2 Hk2].
  unfold isExpandable in Hk1, Hk2.
  destruct (Expandable.ofKey k1) as [e1|] eqn:He1; [| discriminate].
  destruct (Expandable.ofKey k2) as [e2|] eqn:He2; [| discriminate].
  rewrite (toggleExpand_expands _ _ Hnot1 He1) in *.
  set (q1 := requestAnimationFrame CompleteExpand _) in *.
  destruct (@run_outside_frames between1 q1 Hquiet1) as [Hc1 [r1 Hr1]].
  set (p1 := run between1 q1) in *.
  rewrite (toggleExpand_expands _ _ Hnot2 He2).
  set (q2 := requestAnimationFrame CompleteExpand _).
  destruct (@run_outside_frames between2 q2 Hquiet2) as [Hc2 [r2 Hr2]].
  set (p2 := run between2 q2) in *.
  assert (Hq : animationFrames p2
               = animationFrames p
                 ++ CompleteExpand :: (r1 ++ [CompleteExpand]) ++ r2).
  { rewrite Hr2. subst q2. simpl. rewrite Hr1. subst q1. simpl.
    rewrite <- !app_assoc. reflexivity. }
  assert (Hp2 : expandCompleted p2 = false) by (apply Hc2; reflexivity).
  assert (Hne : animationFrames p2 <> []).
  { rewrite Hq. destruct (animationFrames p); discriminate. }
  split; [apply Hc1; reflexivity |].
  split; [exact Hp2 |].
  split.
  { eexists. split; [exact Hq |].
    apply in_or_app. left. apply in_or_app. right. left. reflexivity. }
  split; [apply completions_when_pending; assumption |].
  destruct (animationFrame_completes p2) as [Hnone Hdone].
  split; [apply Hdone; left; exact Hne |].
  split; [exact Hnone |].
  unfold animationFrame.
  destruct (runCallbacks_frame (length (animationFrames p2)) p2)
    as [_ [Hu _]].
  rewrite Hu. reflexivity.
Qed.

(** The request body expanded, an error ignored, then the response body
    expanded, all before the next frame. *)
Lemma expansions_settle_once_per_frame_sample :
  let p := Sample.pane Sample.completed in
  let p1 := run [IgnoreError] (toggleExpand CardKey.requestBody p) in
  let p2 := run [] (toggleExpand CardKey.responseBody p1) in
  expandCompleted p1 = false
  /\ expandCompleted p2 = false
  /\ animationFrames p2 = [CompleteExpand; CompleteExpand]
  /\ completions (length (animationFrames p2)) p2 = 1
  /\ expandCompleted (animationFrame p2) = true
  /\ animationFrames (animationFrame p2) = []
  /\ UiStore.expandedCard (uiStore (animationFrame p2))
     = Some Expandable.responseBody.
Proof.
  cbv zeta.
  destruct (@expansions_settle_once_per_frame
              (Sample.pane Sample.completed)
              CardKey.requestBody CardKey.responseBody [IgnoreError] [])
    as [H1 [H2 [_ [H4 [H5 [H6 _]]]]]].
  - split; reflexivity.
  - constructor; [discriminate | constructor].
  - split; reflexivity.
  - constructor.
  - split; [exact H1 |]. split; [exact H2 |]. split; [reflexivity |].
    split; [exact H4 |]. split; [exact H5 |]. split; [exact H6 |].
    reflexivity.
Defined.

(** X2. Whatever the cards, the error header and the browser do, in
    whatever order: if the expanded card was not collapsed to begin with
    (as when none is expanded), the expanded card is not collapsed
    afterwards. *)
Theorem run_keeps_expanded_card_not_collapsed (evs : list Event) (p : Pane)
    (Hinit : ExpandedNotCollapsed p) :
  ExpandedNotCollapsed (run evs p).
Proof.
  revert p Hinit. induction evs as [|ev evs IH]; intros p Hinit; simpl;
    [exact Hinit |].
  apply IH.
  destruct (step_cases ev p)
    as [H | [H | [H | [[k H] | [H | [k [e [He H]]]]]]]]; rewrite H.
  - exact Hinit.
  - exact Hinit.
  - unfold ExpandedNotCollapsed, animationFrame.
    destruct (runCallbacks_frame (length (animationFrames p)) p)
      as [_ [Hu _]].
    rewrite Hu. exact Hinit.
  - intros e' He'. discriminate He'.
  - intros e' He'. discriminate He'.
  - intros e' He'. simpl in He'. injection He' as <-. simpl.
    rewrite (Expandable_ofKey_some _ He), CardKey_eqb_refl. reflexivity.
Qed.

(** X3. Whatever the cards, the error header and the browser do, in
    whatever order: an expansion that is not completed has its completing
    callback outstanding, given that it had to begin with (as when the
    expansion is completed); so the next animation frame completes it and
    leaves no callback outstanding. *)
Theorem run_keeps_completion_scheduled (evs : list Event) (p : Pane)
    (Hinit : CompletionScheduled p) :
  CompletionScheduled (run evs p)
  /\ expandCompleted (animationFrame (run evs p)) = true
  /\ animationFrames (animationFrame (run evs p)) = [].
Proof.
  assert (Hrun : CompletionScheduled (run evs p)).
  { revert p Hinit. induction evs as [|ev evs IH]; intros p Hinit; simpl;
      [exact Hinit |].
    apply IH.
    destruct (step_cases ev p)
      as [H | [H | [H | [[k H] | [H | [k [e [He H]]]]]]]]; rewrite H;
      try exact Hinit.
    - intros Hc. exfalso.
      destruct (animationFrame_completes p) as [_ Hdone].
      rewrite Hdone in Hc; [discriminate |].
      destruct (expandCompleted p) eqn:E; [right; reflexivity |].
      left. apply Hinit. exact E.
    - intros _. simpl. destruct (animationFrames p); discriminate. }
  split; [exact Hrun |].
  destruct (animationFrame_completes (run evs p)) as [Hq Hdone].
  split; [| exact Hq].
  apply Hdone.
  destruct (expandCompleted (run evs p)) eqn:E; [right; reflexivity |].
  left. apply Hrun. exact E.
Qed.

(** X4. Collapsing a card and collapsing it again gives every card the
    state it had, and leaves no card expanded. *)
Theorem toggleCollapse_twice (p : Pane) (key : CardKey.t) :
  exists p1 p2,
    toggleCollapse (CardKey.name key) p = Js.Returned p1
    /\ toggleCollapse (CardKey.name key) p1 = Js.Returned p2
    /\ UiStore.expandedCard (uiStore p2) = None
    /\ (forall k, UiStore.viewCardStates (uiStore p2) k
                  = UiStore.viewCardStates (uiStore p) k)
    /\ exchange p2 = exchange p
    /\ expandCompleted p2 = expandCompleted p
    /\ animationFrames p2 = animationFrames p.
Proof.
  do 2 eexists.
  split; [apply toggleCollapse_returns, CardKey_ofName_name |].
  split; [apply toggleCollapse_returns, CardKey_ofName_name |].
  simpl. rewrite CardKey_eqb_refl. simpl.
  repeat split; try reflexivity.
  intros k. destruct (CardKey.eqb k key) eqn:E; [| reflexivity].
  apply CardKey_eqb_eq in E. subst k. rewrite negb_involutive.
  destruct (UiStore.viewCardStates (uiStore p) key). reflexivity.
Qed.

(* ================================================================== *)
(** ** Ignoring an error, again                                        *)
(* ================================================================== *)

Lemma filter_twice {A : Type} (f : A -> bool) (l : list A) :
  filter f (filter f l) = filter f l.
Proof.
  induction l as [|a l IH]; simpl; [reflexivity |].
  destruct (f a) eqn:E; simpl; rewrite ?E, IH; reflexivity.
Qed.

Lemma filter_all {A : Type} (f : A -> bool) (l : list A) :
  filter f l = l <-> Forall (fun a => f a = true) l.
Proof.
  induction l as [|a l IH]; simpl.
  - split; [constructor | reflexivity].
  - destruct (f a) eqn:E.
    + split.
      * intros H. injection H as H. constructor; [exact E | apply IH, H].
      * intros H. inversion H; subst. f_equal. apply IH. assumption.
    + split.
      * intros H.
        assert (Hlen : length (filter f l) <= length l)
          by apply filter_length_le.
        rewrite H in Hlen. simpl in Hlen. lia.
      * intros H. inversion H; subst. congruence.
Qed.

(** X5. Ignoring the error a second time changes nothing more; ignoring
    it changes nothing at all exactly when the exchange has no tag of an
    error family; and it never touches the view state, the expansion flag
    or the outstanding callbacks. *)
Theorem ignoreError_idempotent (p : Pane) :
  ignoreError (ignoreError p) = ignoreError p
  /\ (ignoreError p = p
      <-> Forall (fun t => ~ ErrorFamily t) (HttpExchange.tags (exchange p)))
  /\ uiStore (ignoreError p) = uiStore p
  /\ expandCompleted (ignoreError p) = expandCompleted p
  /\ animationFrames (ignoreError p) = animationFrames p.
Proof.
  split.
  { unfold ignoreError, withExchange, HttpExchange.setTags. simpl.
    rewrite filter_twice. reflexivity. }
  split; [| repeat split; reflexivity].
  assert (Hkept : Forall (fun t => ~ ErrorFamily t)
                    (HttpExchange.tags (exchange p))
                  <-> filter keptByIgnoreError (HttpExchange.tags (exchange p))
                      = HttpExchange.tags (exchange p)).
  { rewrite filter_all. rewrite !Forall_forall.
    split; intros H t Ht; specialize (H t Ht).
    - destruct (keptByIgnoreError t) eqn:E; [reflexivity |].
      apply keptByIgnoreError_family in E. contradiction.
    - intros Hf. apply keptByIgnoreError_family in Hf. congruence. }
  rewrite Hkept. split.
  - intros H. apply (f_equal (fun q => HttpExchange.tags (exchange q))) in H.
    exact H.
  - intros H. unfold ignoreError, withExchange, HttpExchange.setTags.
    rewrite H. destruct p as [[] ui paid done frames]. reflexivity.
Qed.

(* ================================================================== *)
(** ** The panels of every view                                        *)
(* ================================================================== *)

Lemma subsequenceb_sound (a b : list Js.str) :
  subsequenceb a b = true -> Subsequence a b.
Proof.
  revert a. induction b as [|y b IH]; intros [|x a]; simpl; intros H.
  - constructor.
  - discriminate.
  - apply Subsequence_skip. apply IH. destruct b; reflexivity.
  - destruct (Js.eqb x y) eqn:E.
    + apply Js_eqb_eq in E. subst y. apply Subsequence_take. apply IH, H.
    + apply Subsequence_skip. apply IH, H.
Qed.

Lemma Subsequence_In {A : Type} (a b : list A) (x : A) :
  Subsequence a b -> In x a -> In x b.
Proof.
  induction 1; simpl; intros Hin; auto.
  destruct Hin; auto.
Qed.

Lemma Subsequence_NoDup {A : Type} (a b : list A) :
  Subsequence a b -> NoDup b -> NoDup a.
Proof.
  induction 1 as [| x a b _ IH | x a b Hs IH]; intros Hb.
  - exact Hb.
  - inversion Hb; subst. apply IH. assumption.
  - inversion Hb; subst. constructor; [| apply IH; assumption].
    intros Hin. apply (@Subsequence_In _ _ _ x Hs) in Hin. contradiction.
Qed.

(** Closes [~ In x names] on literal names, by comparing them. *)
Ltac not_among :=
  let H := fresh in
  intros H; vm_compute in H;
  repeat match type of H with
         | _ \/ _ => destruct H as [H | H]
         end;
  solve [discriminate H | contradiction].

Lemma canonicalOrder_NoDup : NoDup canonicalOrder.
Proof.
  unfold canonicalOrder.
  repeat (apply NoDup_cons; [not_among |]). apply NoDup_nil.
Qed.

(** The panels of the normal cards, when the message list can be built. *)
Lemma renderNormalCards_panels (p : Pane) (x : HttpExchange.t)
    (apiName : option Js.str)
    (apiExchange : option HttpExchange.ApiExchange) :
  (showsMessages x = true -> 3 <= urlSegments x) ->
  exists cards,
    renderNormalCards p x apiName apiExchange = ([], Js.Returned cards)
    /\ List.map panelName (mounted cards)
       = normalPanels (namedApi apiName) x.
Proof.
  intros Hurl. unfold renderNormalCards, normalPanels, showsMessages in *.
  cbv zeta.
  destruct (HttpExchange.isWebSocket x && HttpExchange.wasAccepted x).
  - destruct (renderWebSocketMessages_returns p x (Hurl eq_refl))
      as [props [onExpand [paid [prefix [Hr [Hc _]]]]]].
    rewrite Hr. unfold renderApiCard, renderRequestBody, renderResponseBody.
    destruct apiName as [[|c n]|], (isPaidUser p),
      (HttpExchange.hasRequestBody x), (HttpExchange.response x),
      (HttpExchange.hasResponseBody x), (HttpExchange.closeState x),
      (HttpExchange.requestBreakpoint x),
      (HttpExchange.responseBreakpoint x);
      (eexists; split; [reflexivity |]);
      simpl; unfold panelName; simpl; rewrite Hc; reflexivity.
  - unfold renderApiCard, renderRequestBody, renderResponseBody.
    destruct apiName as [[|c n]|], (isPaidUser p),
      (HttpExchange.hasRequestBody x), (HttpExchange.response x),
      (HttpExchange.hasResponseBody x), (HttpExchange.closeState x),
      (HttpExchange.requestBreakpoint x),
      (HttpExchange.responseBreakpoint x);
      (eexists; split; reflexivity).
Qed.

(** The panels of the cards at a breakpoint; they are always built. *)
Lemma renderBreakpointCards_panels (p : Pane) (x : HttpExchange.t)
    (apiName : option Js.str)
    (apiExchange : option HttpExchange.ApiExchange) :
  Js.defined (HttpExchange.requestBreakpoint x)
  || Js.defined (HttpExchange.responseBreakpoint x) = true ->
  exists cards,
    renderBreakpointCards p x apiName apiExchange = ([], Js.Returned cards)
    /\ List.map panelName (mounted cards)
       = breakpointPanels (namedApi apiName) x.
Proof.
  unfold renderBreakpointCards, breakpointPanels,
    renderApiCard, renderRequestBody, renderResponseBody.
  destruct (HttpExchange.requestBreakpoint x),
    (HttpExchange.responseBreakpoint x); simpl; intros H;
    try discriminate;
    destruct apiName as [[|c n]|], (isPaidUser p),
      (HttpExchange.hasRequestBody x);
    (eexists; split; reflexivity).
Qed.

(** The three ways [renderExpandedCard] returns, and the one it does
    not. *)
Lemma renderExpandedCard_outcome (p : Pane) (e : Expandable.t)
    (x : HttpExchange.t) (apiExchange : option HttpExchange.ApiExchange) :
  if legalExpansion e x
  then
    if Expandable.eqb e Expandable.webSocketMessages && (urlSegments x <? 3)
    then renderExpandedCard p e x apiExchange
         = ([], Js.Thrown (Js.TypeError (Js.lit "split")))
    else exists card,
           renderExpandedCard p e x apiExchange
           = ([], Js.Returned (Some card))
           /\ panelName card = CardKey.name (Expandable.key e)
  else
    renderExpandedCard p e x apiExchange
    = ([Js.lit "Expanded " ++ CardKey.name (Expandable.key e)
        ++ Js.lit ", but can't show anything"],
       Js.Returned None).
Proof.
  unfold renderExpandedCard.
  destruct e; simpl Expandable.eqb; simpl legalExpansion; cbv iota;
    simpl andb.
  - unfold renderRequestBody.
    destruct (HttpExchange.requestBreakpoint x);
      eexists; split; reflexivity.
  - destruct (HttpExchange.isSuccessfulExchange x
              || Js.defined (HttpExchange.responseBreakpoint x));
      [| reflexivity].
    unfold renderResponseBody.
    destruct (HttpExchange.responseBreakpoint x);
      eexists; split; reflexivity.
  - destruct (HttpExchange.isWebSocket x && HttpExchange.wasAccepted x);
      [| reflexivity].
    destruct (Nat.ltb_spec (urlSegments x) 3) as [Hshort | Hlong].
    + rewrite (renderWebSocketMessages_throws p x Hshort). reflexivity.
    + destruct (renderWebSocketMessages_returns p x Hlong)
        as [props [onExpand [paid [prefix [Hr [Hc _]]]]]].
      rewrite Hr. eexists. split; [reflexivity |].
      unfold panelName. simpl. rewrite Hc. reflexivity.
Qed.

Lemma renderNormalCards_throws (p : Pane) (x : HttpExchange.t)
    (apiName : option Js.str)
    (apiExchange : option HttpExchange.ApiExchange) :
  showsMessages x = true ->
  urlSegments x < 3 ->
  renderNormalCards p x apiName apiExchange
  = ([], Js.Thrown (Js.TypeError (Js.lit "split"))).
Proof.
  unfold renderNormalCards, showsMessages. cbv zeta. intros -> Hshort.
  rewrite (renderWebSocketMessages_throws p x Hshort). reflexivity.
Qed.

Section Panels.

Variable startCase : Js.str -> Js.str.
Variable ErrorType : Type.
Variable tagsToErrorType : list Js.str -> option ErrorType.

(** With no card expanded, [render] is the header, the cards for the
    breakpoint or the normal ones, and the footer; the API card is asked
    for by the friendly name of the matched operation. *)
Lemma render_stack (p : Pane) :
  UiStore.expandedCard (uiStore p) = None ->
  exists apiName,
    namedApi apiName = showsApiCard startCase (exchange p)
    /\ render startCase tagsToErrorType p
       = (cards <-
            (if Js.defined (HttpExchange.requestBreakpoint (exchange p))
                || Js.defined (HttpExchange.responseBreakpoint (exchange p))
             then renderBreakpointCards p (exchange p) apiName
                    (if isPaidUser p then HttpExchange.api (exchange p)
                     else None)
             else renderNormalCards p (exchange p) apiName
                    (if isPaidUser p then HttpExchange.api (exchange p)
                     else None)) ;;
          Js.ret (OuterContainer
                    (renderHeaderCard tagsToErrorType p (exchange p))
                    cards (isPaidUser p))).
Proof.
  unfold render, showsApiCard. intros ->.
  eexists. split; [| reflexivity].
  destruct (HttpExchange.api (exchange p)) as [a|]; [| reflexivity].
  destruct (HttpExchange.matchedOperation a); [| reflexivity].
  destruct (makeFriendlyApiName startCase (HttpExchange.serviceName a));
    reflexivity.
Qed.

(** X6. The panels of an exchange with no breakpoint pending, with no
    card expanded: the api card if an operation matched and its friendly
    name is not empty; request; requestBody if the exchange has a request
    body; response if there is a response or it was aborted, followed by
    responseBody if the response is there and has a body; then, for an
    accepted WebSocket, webSocketMessages, followed by webSocketClose if
    there is a close state, and for any other exchange the divider,
    performance and export. The message list of an accepted WebSocket is
    built from the third segment of the request URL, which is supposed to
    be there. Nothing is reported. *)
Theorem render_normal_panels (p : Pane)
    (Hnormal : isNormal (exchange p))
    (Hexpanded : UiStore.expandedCard (uiStore p) = None)
    (Hurl : showsMessages (exchange p) = true -> 3 <= urlSegments (exchange p)) :
  exists cards,
    render startCase tagsToErrorType p
    = ([], Js.Returned
             (OuterContainer
                (renderHeaderCard tagsToErrorType p (exchange p))
                cards (isPaidUser p)))
    /\ List.map panelName (mounted cards)
       = normalPanels (showsApiCard startCase (exchange p)) (exchange p).
Proof.
  destruct (render_stack p Hexpanded) as [apiName [Hapi Hr]].
  rewrite Hr. destruct Hnormal as [-> ->]. simpl orb. cbv iota.
  destruct (renderNormalCards_panels p (exchange p) apiName
              (if isPaidUser p then HttpExchange.api (exchange p) else None)
              Hurl) as [cards [Hc Hn]].
  rewrite Hc. exists cards. split; [reflexivity |].
  rewrite Hn, Hapi. reflexivity.
Qed.

(** X7. With a breakpoint pending and no card expanded, [render] always
    returns, whatever the exchange is otherwise, and reports nothing. At a
    request breakpoint the panels are request and requestBody, the body
    whether the exchange declares one or not, under the request
    breakpoint header. At a response breakpoint alone they are the api
    card if there is one, request, requestBody if the exchange has a
    request body, response and responseBody, under the response
    breakpoint header. Neither has the performance or the export card. *)
Theorem render_breakpoint_panels (p : Pane)
    (Hbreakpoint :
       Js.defined (HttpExchange.requestBreakpoint (exchange p))
       || Js.defined (HttpExchange.responseBreakpoint (exchange p)) = true)
    (Hexpanded : UiStore.expandedCard (uiStore p) = None) :
  exists cards,
    render startCase tagsToErrorType p
    = ([], Js.Returned
             (OuterContainer
                (Some (if Js.defined (HttpExchange.requestBreakpoint (exchange p))
                       then HttpRequestBreakpointHeader
                       else HttpResponseBreakpointHeader))
                cards (isPaidUser p)))
    /\ List.map panelName (mounted cards)
       = breakpointPanels (showsApiCard startCase (exchange p)) (exchange p)
    /\ ~ In (Js.lit "performance") (List.map panelName (mounted cards))
    /\ ~ In (Js.lit "export") (List.map panelName (mounted cards)).
Proof.
  destruct (render_stack p Hexpanded) as [apiName [Hapi Hr]].
  rewrite Hr, Hbreakpoint.
  destruct (renderBreakpointCards_panels p (exchange p) apiName
              (if isPaidUser p then HttpExchange.api (exchange p) else None)
              Hbreakpoint) as [cards [Hc Hn]].
  rewrite Hc. exists cards.
  split.
  { simpl. unfold renderHeaderCard.
    destruct (HttpExchange.requestBreakpoint (exchange p));
      [reflexivity |].
    destruct (HttpExchange.responseBreakpoint (exchange p));
      [reflexivity | discriminate]. }
  rewrite Hn, Hapi. split; [reflexivity |].
  unfold breakpointPanels.
  destruct (Js.defined (HttpExchange.requestBreakpoint (exchange p))),
    (showsApiCard startCase (exchange p)),
    (HttpExchange.hasRequestBody (exchange p));
    split; not_among.
Qed.

(** X8. [render] throws in one case only: when it builds the message
    list (an accepted WebSocket whose messages are the expanded card, or
    with no card expanded and no breakpoint pending) and the request URL
    has fewer than three segments. In every other case it returns a
    view. *)
Theorem render_throws_only_for_short_urls (p : Pane) :
  if buildsMessages p && (urlSegments (exchange p) <? 3)
  then render startCase tagsToErrorType p
       = ([], Js.Thrown (Js.TypeError (Js.lit "split")))
  else exists log v,
         render startCase tagsToErrorType p = (log, Js.Returned v).
Proof.
  unfold buildsMessages.
  destruct (UiStore.expandedCard (uiStore p)) as [e|] eqn:Hexp.
  - rewrite (render_expanded startCase tagsToErrorType _ Hexp).
    pose proof (renderExpandedCard_outcome p e (exchange p)
                  (if isPaidUser p then HttpExchange.api (exchange p)
                   else None)) as H.
    remember (renderExpandedCard p e (exchange p)
                (if isPaidUser p then HttpExchange.api (exchange p)
                 else None)) as r eqn:Hr.
    clear Hr. unfold showsMessages.
    destruct e; simpl in H.
    + destruct H as [card [-> _]]. rewrite andb_false_r.
      do 2 eexists. reflexivity.
    + rewrite andb_false_r.
      destruct (HttpExchange.isSuccessfulExchange (exchange p)
                || Js.defined (HttpExchange.responseBreakpoint (exchange p))).
      * destruct H as [card [-> _]]. do 2 eexists. reflexivity.
      * rewrite H. do 2 eexists. reflexivity.
    + rewrite andb_true_r.
      destruct (HttpExchange.isWebSocket (exchange p)
                && HttpExchange.wasAccepted (exchange p)); simpl andb;
        cbv iota.
      * destruct (urlSegments (exchange p) <? 3).
        -- rewrite H. reflexivity.
        -- destruct H as [card [-> _]]. do 2 eexists. reflexivity.
      * rewrite H. do 2 eexists. reflexivity.
  - destruct (render_stack p Hexp) as [apiName [_ Hr]]. rewrite Hr.
    destruct (Js.defined (HttpExchange.requestBreakpoint (exchange p))
              || Js.defined (HttpExchange.responseBreakpoint (exchange p)))
      eqn:Hbp.
    + simpl negb. rewrite andb_false_r. simpl andb.
      destruct (renderBreakpointCards_panels p (exchange p) apiName
                  (if isPaidUser p then HttpExchange.api (exchange p)
                   else None) Hbp) as [cards [-> _]].
      do 2 eexists. reflexivity.
    + simpl negb. rewrite andb_true_r.
      destruct (showsMessages (exchange p)) eqn:Hshow; simpl andb.
      * destruct (Nat.ltb_spec (urlSegments (exchange p)) 3)
          as [Hshort | Hlong].
        -- rewrite (renderNormalCards_throws p _ _ _ Hshow Hshort).
           reflexivity.
        -- destruct (renderNormalCards_panels p (exchange p) apiName
                       (if isPaidUser p then HttpExchange.api (exchange p)
                        else None)) as [cards [-> _]].
           { intros _. exact Hlong. }
           do 2 eexists. reflexivity.
      * destruct (renderNormalCards_panels p (exchange p) apiName
                    (if isPaidUser p then HttpExchange.api (exchange p)
                     else None)) as [cards [-> _]].
        { rewrite Hshow. discriminate. }
        do 2 eexists. reflexivity.
Qed.

(** With no card expanded nothing is reported. *)
Lemma render_stack_quiet (p : Pane) :
  UiStore.expandedCard (uiStore p) = None ->
  fst (render startCase tagsToErrorType p) = [].
Proof.
  intros Hexp.
  destruct (render_stack p Hexp) as [apiName [_ Hr]]. rewrite Hr.
  destruct (Js.defined (HttpExchange.requestBreakpoint (exchange p))
            || Js.defined (HttpExchange.responseBreakpoint (exchange p)))
    eqn:Hbp.
  - destruct (renderBreakpointCards_panels p (exchange p) apiName
                (if isPaidUser p then HttpExchange.api (exchange p)
                 else None) Hbp) as [cards [-> _]].
    reflexivity.
  - destruct (showsMessages (exchange p)) eqn:Hshow.
    + destruct (Nat.ltb_spec (urlSegments (exchange p)) 3)
        as [Hshort | Hlong].
      * rewrite (renderNormalCards_throws p _ _ _ Hshow Hshort).
        reflexivity.
      * destruct (renderNormalCards_panels p (exchange p) apiName
                    (if isPaidUser p then HttpExchange.api (exchange p)
                     else None)) as [cards [-> _]];
          [intros _; exact Hlong | reflexivity].
    + destruct (renderNormalCards_panels p (exchange p) apiName
                  (if isPaidUser p then HttpExchange.api (exchange p)
                   else None)) as [cards [-> _]];
        [rewrite Hshow; discriminate | reflexivity].
Qed.

(** X9. [render] reports to the error collector in one case only: a card
    is expanded that the exchange cannot show; then it reports once. *)
Theorem render_reports_only_illegal_expansion (p : Pane) :
  fst (render startCase tagsToErrorType p)
  = match UiStore.expandedCard (uiStore p) with
    | Some e =>
        if legalExpansion e (exchange p) then []
        else [Js.lit "Expanded " ++ CardKey.name (Expandable.key e)
              ++ Js.lit ", but can't show anything"]
    | None => []
    end.
Proof.
  destruct (UiStore.expandedCard (uiStore p)) as [e|] eqn:Hexp.
  - rewrite (render_expanded startCase tagsToErrorType _ Hexp).
    pose proof (renderExpandedCard_outcome p e (exchange p)
                  (if isPaidUser p then HttpExchange.api (exchange p)
                   else None)) as H.
    destruct (legalExpansion e (exchange p)).
    + destruct (Expandable.eqb e Expandable.webSocketMessages
                && (urlSegments (exchange p) <? 3)).
      * rewrite H. reflexivity.
      * destruct H as [card [-> _]]. reflexivity.
    + rewrite H. reflexivity.
  - apply render_stack_quiet. exact Hexp.
Qed.

End Panels.

(* ================================================================== *)
(** ** The order of the panels                                         *)
(* ================================================================== *)

Lemma normalPanels_canonical (apiCard : bool) (x : HttpExchange.t) :
  Subsequence (normalPanels apiCard x) canonicalOrder.
Proof.
  unfold normalPanels, showsMessages.
  destruct apiCard, (HttpExchange.hasRequestBody x),
    (HttpExchange.response x), (HttpExchange.hasResponseBody x),
    (HttpExchange.isWebSocket x), (HttpExchange.wasAccepted x),
    (HttpExchange.closeState x);
    apply subsequenceb_sound; vm_compute; reflexivity.
Qed.

Lemma breakpointPanels_canonical (apiCard : bool) (x : HttpExchange.t) :
  Subsequence (breakpointPanels apiCard x) canonicalOrder.
Proof.
  unfold breakpointPanels.
  destruct apiCard, (HttpExchange.requestBreakpoint x),
    (HttpExchange.hasRequestBody x);
    apply subsequenceb_sound; vm_compute; reflexivity.
Qed.

Section Order.

Variable startCase : Js.str -> Js.str.
Variable ErrorType : Type.
Variable tagsToErrorType : list Js.str -> option ErrorType.

(** X10. In every view [render] returns, expanded or not, at a
    breakpoint or not, the panels come in the order of the card keys (the
    divider between webSocketClose and performance), and none comes
    twice. *)
Theorem render_panels_in_card_key_order (p : Pane)
    (log : list Js.str) (v : View ErrorType)
    (Hview : render startCase tagsToErrorType p = (log, Js.Returned v)) :
  Subsequence (panelOrder v) canonicalOrder /\ NoDup (panelOrder v).
Proof.
  assert (Hsub : Subsequence (panelOrder v) canonicalOrder).
  { destruct (UiStore.expandedCard (uiStore p)) as [e|] eqn:Hexp.
    - rewrite (render_expanded startCase tagsToErrorType _ Hexp) in Hview.
      pose proof (renderExpandedCard_outcome p e (exchange p)
                    (if isPaidUser p then HttpExchange.api (exchange p)
                     else None)) as H.
      destruct (legalExpansion e (exchange p)).
      + destruct (Expandable.eqb e Expandable.webSocketMessages
                  && (urlSegments (exchange p) <? 3)).
        * rewrite H in Hview. discriminate Hview.
        * destruct H as [card [Hr Hn]]. rewrite Hr in Hview.
          simpl in Hview. injection Hview as _ <-.
          unfold panelOrder. simpl. rewrite Hn.
          destruct e; apply subsequenceb_sound; vm_compute; reflexivity.
      + rewrite H in Hview. simpl in Hview. injection Hview as _ <-.
        apply subsequenceb_sound. reflexivity.
    - destruct (render_stack startCase tagsToErrorType p Hexp)
        as [apiName [_ Hr]].
      rewrite Hr in Hview. clear Hr.
      destruct (Js.defined (HttpExchange.requestBreakpoint (exchange p))
                || Js.defined (HttpExchange.responseBreakpoint (exchange p)))
        eqn:Hbp.
      + destruct (renderBreakpointCards_panels p (exchange p) apiName
                    (if isPaidUser p then HttpExchange.api (exchange p)
                     else None) Hbp) as [cards [Hc Hn]].
        rewrite Hc in Hview. simpl in Hview. injection Hview as _ <-.
        unfold panelOrder. simpl. rewrite Hn.
        apply breakpointPanels_canonical.
      + assert (Hurl : showsMessages (exchange p) = true ->
                       3 <= urlSegments (exchange p)).
        { intros Hshow.
          destruct (Nat.ltb_spec (urlSegments (exchange p)) 3)
            as [Hshort | Hlong]; [| exact Hlong].
          rewrite (renderNormalCards_throws p _ _ _ Hshow Hshort) in Hview.
          discriminate Hview. }
        destruct (renderNormalCards_panels p (exchange p) apiName
                    (if isPaidUser p then HttpExchange.api (exchange p)
                     else None) Hurl) as [cards [Hc Hn]].
        rewrite Hc in Hview. simpl in Hview. injection Hview as _ <-.
        unfold panelOrder. simpl. rewrite Hn.
        apply normalPanels_canonical. }
  split; [exact Hsub |].
  apply (Subsequence_NoDup Hsub). apply canonicalOrder_NoDup.
Qed.

End Order.

(* ================================================================== *)
(** ** Splitting and joining                                           *)
(* ================================================================== *)

Lemma join_cons (piece : Js.str) (rest : list Js.str) (sep : N) :
  rest <> [] -> join (piece :: rest) sep = piece ++ sep :: join rest sep.
Proof. destruct rest; [congruence | reflexivity]. Qed.

Lemma Js_splitFrom_nonempty (sep : N) (piece s : Js.str) :
  Js.splitFrom sep piece s <> [].
Proof.
  rewrite <- length_zero_iff_nil, Js_splitFrom_count. discriminate.
Qed.

(** Joining the pieces with the separator gives the string back. *)
Lemma Js_splitFrom_join (sep : N) (piece s : Js.str) :
  join (Js.splitFrom sep piece s) sep = rev piece ++ s.
Proof.
  revert piece. induction s as [|c s IH]; intros piece; simpl.
  - rewrite app_nil_r. reflexivity.
  - destruct (N.eqb c sep) eqn:E.
    + apply N.eqb_eq in E. subst c.
      rewrite join_cons by apply Js_splitFrom_nonempty.
      rewrite IH. reflexivity.
    + rewrite IH. simpl. rewrite <- app_assoc. reflexivity.
Qed.

(** No piece holds the separator, and every piece is made of code units
    of the string. *)
Lemma Js_splitFrom_pieces (sep : N) (piece s : Js.str) :
  ~ In sep piece ->
  Forall (fun q => ~ In sep q
                   /\ forall c, In c q -> In c piece \/ In c s)
    (Js.splitFrom sep piece s).
Proof.
  revert piece. induction s as [|c s IH]; intros piece Hpiece; simpl.
  - constructor; [| constructor]. split.
    + rewrite <- in_rev. exact Hpiece.
    + intros d Hd. left. apply in_rev. exact Hd.
  - destruct (N.eqb c sep) eqn:E.
    + constructor.
      * split; [rewrite <- in_rev; exact Hpiece |].
        intros d Hd. left. apply in_rev. exact Hd.
      * assert (Hnil : ~ In sep (@nil N)) by (intros []).
        specialize (IH [] Hnil).
        eapply Forall_impl; [| exact IH].
        intros q [Hq Hin]. split; [exact Hq |].
        intros d Hd. destruct (Hin d Hd) as [[] | H]. right. right. exact H.
    + assert (Hc : ~ In sep (c :: piece)).
      { intros [H | H]; [| contradiction].
        subst c. rewrite N.eqb_refl in E. discriminate. }
      specialize (IH (c :: piece) Hc).
      eapply Forall_impl; [| exact IH].
      intros q [Hq Hin]. split; [exact Hq |].
      intros d Hd. destruct (Hin d Hd) as [[H | H] | H]; simpl; auto.
Qed.

Lemma Js_split_pieces (s : Js.str) (sep : N) (i : nat) (q : Js.str) :
  nth_error (Js.split s sep) i = Some q ->
  ~ In sep q /\ forall c, In c q -> In c s.
Proof.
  intros Hq. apply nth_error_In in Hq.
  assert (Hnil : ~ In sep (@nil N)) by (intros []).
  pose proof (@Js_splitFrom_pieces sep [] s Hnil) as Hall.
  rewrite Forall_forall in Hall. destruct (Hall q Hq) as [H1 H2].
  split; [exact H1 |].
  intros c Hc. destruct (H2 c Hc) as [[] | H]. exact H.
Qed.

(** The first piece is the string up to its first separator. *)
Lemma Js_split_first (s : Js.str) (sep : N) :
  exists first, nth_error (Js.split s sep) 0 = Some first
                /\ (s = first \/ exists rest, s = first ++ sep :: rest).
Proof.
  unfold Js.split.
  pose proof (Js_splitFrom_join sep [] s) as Hjoin. simpl in Hjoin.
  destruct (Js.splitFrom sep [] s) as [|first others] eqn:E.
  - exfalso. apply (@Js_splitFrom_nonempty sep [] s E).
  - exists first. split; [reflexivity |].
    destruct others as [|o others].
    + left. simpl in Hjoin. congruence.
    + right. exists (join (o :: others) sep).
      rewrite join_cons in Hjoin by discriminate. congruence.
Qed.

(* ================================================================== *)
(** ** The message list card                                           *)
(* ================================================================== *)

(** The card in full, for a URL of three segments or more. *)
Lemma renderWebSocketMessages_card (p : Pane) (x : HttpExchange.t) :
  3 <= urlSegments x ->
  exists third,
    nth_error (Js.split (HttpExchange.requestUrl x) Js.slash) 2 = Some third
    /\ renderWebSocketMessages p x
       = ([], Js.Returned
                (StreamMessageListCard
                   (withExpandedProp
                      (UiStore.expandedIs (uiStore p)
                         CardKey.webSocketMessages)
                      (withKey
                         (CardKey.name CardKey.webSocketMessages
                          ++ Js.lit "-" ++ HttpExchange.id (exchange p))
                         (cardProps p CardKey.webSocketMessages)))
                   (ToggleExpand CardKey.webSocketMessages)
                   (isPaidUser p)
                   (template (nth_error (Js.split third Js.colon) 0)
                    ++ match nth_error
                               (Js.split (HttpExchange.requestUrl x) Js.slash)
                               (urlSegments x - 1) with
                       | Some b => if Js.truthy b then Js.lit "- " ++ b else []
                       | None => []
                       end
                    ++ Js.lit " - websocket"))).
Proof.
  unfold urlSegments, renderWebSocketMessages, Js.index. intros H.
  cbv zeta.
  destruct (nth_error (Js.split (HttpExchange.requestUrl x) Js.slash) 2)
    as [third|] eqn:E.
  - exists third. split; [reflexivity |].
    destruct (Nat.leb_spec 2
                (length (Js.split (HttpExchange.requestUrl x) Js.slash)));
      [reflexivity | lia].
  - apply nth_error_None in E. lia.
Qed.

(** X11. The React key of the message list is the card key followed by
    the id of the exchange of the pane: the lists of two panes have the
    same key exactly when their exchanges have the same id. *)
Theorem webSocketMessages_key_follows_exchange
    (p1 p2 : Pane) (x1 x2 : HttpExchange.t)
    (Hurl1 : 3 <= urlSegments x1) (Hurl2 : 3 <= urlSegments x2) :
  exists card1 card2 props1 props2,
    renderWebSocketMessages p1 x1 = ([], Js.Returned card1)
    /\ renderWebSocketMessages p2 x2 = ([], Js.Returned card2)
    /\ baseProps card1 = Some props1
    /\ baseProps card2 = Some props2
    /\ key props1
       = Js.lit "webSocketMessages-" ++ HttpExchange.id (exchange p1)
    /\ (key props1 = key props2
        <-> HttpExchange.id (exchange p1) = HttpExchange.id (exchange p2)).
Proof.
  destruct (renderWebSocketMessages_card p1 x1 Hurl1) as [t1 [_ H1]].
  destruct (renderWebSocketMessages_card p2 x2 Hurl2) as [t2 [_ H2]].
  do 4 eexists.
  split; [exact H1 |]. split; [exact H2 |].
  split; [reflexivity |]. split; [reflexivity |].
  split; [reflexivity |].
  simpl key. split.
  - intros H. repeat (injection H as H). exact H.
  - intros ->. reflexivity.
Qed.

(** X12. The file name prefix of the message list, for a URL of three
    segments or more: it starts with the third segment up to its first
    colon (the host without the port), ends in [" - websocket"], and
    holds no slash. *)
Theorem webSocketMessages_filenamePrefix (p : Pane) (x : HttpExchange.t)
    (Hurl : 3 <= urlSegments x) :
  exists props onExpand paid prefix third domain middle,
    renderWebSocketMessages p x
    = ([], Js.Returned (StreamMessageListCard props onExpand paid prefix))
    /\ nth_error (Js.split (HttpExchange.requestUrl x) Js.slash) 2
       = Some third
    /\ (third = domain \/ exists port, third = domain ++ Js.colon :: port)
    /\ ~ In Js.colon domain
    /\ prefix = domain ++ middle ++ Js.lit " - websocket"
    /\ ~ In Js.slash prefix.
Proof.
  destruct (renderWebSocketMessages_card p x Hurl) as [third [Hthird Hr]].
  destruct (Js_split_first third Js.colon) as [domain [Hd Hsplit]].
  rewrite Hd in Hr. simpl template in Hr.
  do 7 eexists.
  split; [exact Hr |].
  split; [exact Hthird |].
  split; [exact Hsplit |].
  destruct (@Js_split_pieces _ _ _ _ Hd) as [Hcolon Hchars].
  destruct (@Js_split_pieces _ _ _ _ Hthird) as [Hslash _].
  split; [exact Hcolon |].
  split; [reflexivity |].
  rewrite !in_app_iff. intros [H | [H | H]].
  - apply Hslash. apply Hchars. exact H.
  - destruct (nth_error (Js.split (HttpExchange.requestUrl x) Js.slash)
                (urlSegments x - 1)) as [b|] eqn:Hb; [| contradiction].
    destruct (Js.truthy b); [| contradiction].
    apply in_app_iff in H. destruct H as [H | H].
    + vm_compute in H. destruct H as [H | [H | []]]; discriminate H.
    + destruct (@Js_split_pieces _ _ _ _ Hb) as [Hno _]. contradiction.
  - vm_compute in H.
    repeat match type of H with
           | _ \/ _ => destruct H as [H | H]
           end; solve [discriminate H | contradiction].
Qed.

(* ================================================================== *)
(** ** What the free tier is shown                                     *)
(* ================================================================== *)





Section FreeTier.

Variable startCase : Js.str -> Js.str.
Variable ErrorType : Type.
Variable tagsToErrorType : list Js.str -> option ErrorType.


End FreeTier.

(* ================================================================== *)
(** ** Expanding a card, and taking it back                            *)
(* ================================================================== *)

(** The card props depend on the card states through the collapsed flags
    only. *)
Lemma cardProps_ext (p q : Pane) (k : CardKey.t) :
  UiStore.expandedCard (uiStore p) = UiStore.expandedCard (uiStore q) ->
  UiStore.collapsed (UiStore.viewCardStates (uiStore p) k)
  = UiStore.collapsed (UiStore.viewCardStates (uiStore q) k) ->
  cardProps p k = cardProps q k.
Proof.
  unfold cardProps, UiStore.expandedIs. intros -> ->. reflexivity.
Qed.

Section Expanding.

Variable startCase : Js.str -> Js.str.
Variable ErrorType : Type.
Variable tagsToErrorType : list Js.str -> option ErrorType.

(** With no card expanded, [render] reads of the pane the exchange, the
    tier and the collapsed flags: not the expansion flag, not the
    outstanding callbacks. *)
Lemma render_stack_ext (p q : Pane) :
  UiStore.expandedCard (uiStore p) = None ->
  UiStore.expandedCard (uiStore q) = None ->
  exchange p = exchange q ->
  isPaidUser p = isPaidUser q ->
  (forall k, UiStore.collapsed (UiStore.viewCardStates (uiStore p) k)
             = UiStore.collapsed (UiStore.viewCardStates (uiStore q) k)) ->
  render startCase tagsToErrorType p = render startCase tagsToErrorType q.
Proof.
  intros Hp Hq Hx Hpaid Hstates.
  assert (Hprops : forall k, cardProps p k = cardProps q k).
  { intros k. apply cardProps_ext; [congruence | apply Hstates]. }
  unfold render. rewrite Hp, Hq, <- Hx, <- Hpaid.
  unfold renderBreakpointCards, renderNormalCards, renderApiCard,
    renderRequestBody, renderResponseBody, renderWebSocketMessages,
    renderHeaderCard, requestBodyParams, responseBodyParams,
    UiStore.expandedIs, props_exchange.
  rewrite Hp, Hq, <- Hx, <- Hpaid, !Hprops. reflexivity.
Qed.

(** X14. Expanding a card from the normal view, when the exchange can
    show it: the next view is that card alone under the header, flagged
    expanded and not collapsed, in the container whose expansion is not
    completed; after the next animation frame it is the same card in the
    container whose expansion is completed. The message list is built
    from the third segment of the request URL, which is supposed to be
    there. *)
Theorem render_after_toggleExpand (p : Pane) (e : Expandable.t)
    (Hnone : UiStore.expandedCard (uiStore p) = None)
    (Hlegal : legalExpansion e (exchange p) = true)
    (Hurl : e = Expandable.webSocketMessages -> 3 <= urlSegments (exchange p)) :
  let p1 := toggleExpand (Expandable.key e) p in
  exists card props,
    render startCase tagsToErrorType p1
    = ([], Js.Returned
             (ExpandedContentContainer false
                (renderHeaderCard tagsToErrorType p (exchange p))
                (Some card)))
    /\ render startCase tagsToErrorType (animationFrame p1)
       = ([], Js.Returned
                (ExpandedContentContainer true
                   (renderHeaderCard tagsToErrorType p (exchange p))
                   (Some card)))
    /\ panelName card = CardKey.name (Expandable.key e)
    /\ baseProps card = Some props
    /\ expanded props = true
    /\ collapsed props = false.
Proof.
  cbv zeta.
  rewrite (@toggleExpand_expands p (Expandable.key e) e).
  2:{ unfold UiStore.expandedIs. rewrite Hnone. reflexivity. }
  2:{ apply Expandable_ofKey_key. }
  set (p1 := requestAnimationFrame _ _).
  assert (Hframe : render startCase tagsToErrorType (animationFrame p1)
                   = render startCase tagsToErrorType
                       (withExpandCompleted true p1)).
  { destruct (animationFrame_completes p1) as [_ Hdone].
    destruct (runCallbacks_frame (length (animationFrames p1)) p1)
      as [H1 [H2 H3]].
    fold (animationFrame p1) in H1, H2, H3.
    assert (Hc : expandCompleted (animationFrame p1) = true).
    { apply Hdone. left. subst p1. simpl.
      destruct (animationFrames p); discriminate. }
    destruct (animationFrame p1) as [x ui paid done frames].
    simpl in H1, H2, H3, Hc. subst. reflexivity. }
  rewrite Hframe. clear Hframe.
  unfold render. subst p1. simpl UiStore.expandedCard. cbv iota.
  unfold renderExpandedCard.
  destruct e; simpl Expandable.eqb; simpl in Hlegal; cbv iota; simpl andb.
  - unfold renderRequestBody. simpl.
    destruct (HttpExchange.requestBreakpoint (exchange p));
      do 2 eexists; repeat split; reflexivity.
  - simpl exchange. rewrite Hlegal.
    unfold renderResponseBody. simpl.
    destruct (HttpExchange.responseBreakpoint (exchange p));
      do 2 eexists; repeat split; reflexivity.
  - simpl exchange. unfold showsMessages in Hlegal. rewrite Hlegal.
    match goal with
    | |- context [renderWebSocketMessages ?q1 _] =>
        destruct (renderWebSocketMessages_card q1 (exchange p) (Hurl eq_refl))
          as [third [Ht Hr1]]
    end.
    match goal with
    | |- context [renderWebSocketMessages
                    (withExpandCompleted true ?q1) _] =>
        destruct (renderWebSocketMessages_card (withExpandCompleted true q1)
                    (exchange p) (Hurl eq_refl))
          as [third' [Ht' Hr2]]
    end.
    rewrite Ht in Ht'. injection Ht' as <-.
    rewrite Hr1, Hr2.
    do 2 eexists. repeat split; reflexivity.
Qed.

(** X15. Expanding a card that was not collapsed and taking the
    expansion back gives the view there was before the expansion, and so
    it stays after the animation frame. *)
Theorem render_after_expand_and_back (p : Pane) (key : CardKey.t)
    (Hnone : UiStore.expandedCard (uiStore p) = None)
    (Hkey : isExpandable key = true)
    (Hcollapsed :
       UiStore.collapsed (UiStore.viewCardStates (uiStore p) key) = false) :
  let p2 := toggleExpand key (toggleExpand key p) in
  render startCase tagsToErrorType p2 = render startCase tagsToErrorType p
  /\ render startCase tagsToErrorType (animationFrame p2)
     = render startCase tagsToErrorType p.
Proof.
  cbv zeta. unfold isExpandable in Hkey.
  destruct (Expandable.ofKey key) as [e|] eqn:He; [| discriminate].
  rewrite (@toggleExpand_expands p key e) by
    (try exact He; unfold UiStore.expandedIs; rewrite Hnone; reflexivity).
  rewrite toggleExpand_expanded.
  2:{ unfold UiStore.expandedIs. simpl.
      rewrite (Expandable_ofKey_some _ He). apply CardKey_eqb_refl. }
  set (p2 := withUiStore _ _).
  assert (Hstates : forall k,
             UiStore.collapsed (UiStore.viewCardStates (uiStore p2) k)
             = UiStore.collapsed (UiStore.viewCardStates (uiStore p) k)).
  { intros k. subst p2. simpl.
    destruct (CardKey.eqb k key) eqn:E; [| reflexivity].
    apply CardKey_eqb_eq in E. subst k. simpl. congruence. }
  split.
  - apply render_stack_ext; try reflexivity; assumption.
  - destruct (runCallbacks_frame (length (animationFrames p2)) p2)
      as [H1 [H2 H3]].
    fold (animationFrame p2) in H1, H2, H3.
    apply render_stack_ext.
    + rewrite H2. reflexivity.
    + exact Hnone.
    + rewrite H1. reflexivity.
    + rewrite H3. reflexivity.
    + intros k. rewrite H2. apply Hstates.
Qed.

End Expanding.

(* ================================================================== *)
(** ** The interception options                                        *)
(* ================================================================== *)

(** [find] returns the first element that passes. *)
Lemma find_first {A : Type} (f : A -> bool) (l : list A) (x : A) :
  find f l = Some x
  <-> exists a b, l = a ++ x :: b /\ f x = true
                  /\ Forall (fun y => f y = false) a.
Proof.
  induction l as [|y l IH]; simpl.
  - split; [discriminate |].
    intros [a [b [H _]]]. destruct a; discriminate H.
  - destruct (f y) eqn:E.
    + split.
      * intros H. injection H as <-. exists [], l. auto.
      * intros [a [b [Hl [Hx Ha]]]]. destruct a as [|z a].
        -- simpl in Hl. congruence.
        -- simpl in Hl. injection Hl as <- _. inversion Ha; congruence.
    + rewrite IH. split.
      * intros [a [b [-> [Hx Ha]]]]. exists (y :: a), b. auto.
      * intros [a [b [Hl [Hx Ha]]]]. destruct a as [|z a].
        -- simpl in Hl. injection Hl as <- _. congruence.
        -- simpl in Hl. injection Hl as <- ->. inversion Ha; subst.
           exists a, b. auto.
Qed.

(** What is read under a key of [_.keyBy(array, 'id')] is the last
    element of the array with that id. *)
Lemma keyBy_last (array : list Interceptors.ServerInterceptor)
    (key : Js.str) (s : Interceptors.ServerInterceptor) :
  Interceptors.keyBy array key = Some s
  <-> exists before after,
        array = before ++ s :: after
        /\ Interceptors.server_id s = key
        /\ Forall (fun s' => Interceptors.server_id s' <> key) after.
Proof.
  unfold Interceptors.keyBy. rewrite find_first. split.
  - intros [a [b [Hrev [Hs Ha]]]].
    exists (rev b), (rev a). split; [| split].
    + rewrite <- (rev_involutive array), Hrev, rev_app_distr. simpl.
      rewrite <- app_assoc. reflexivity.
    + apply Js_eqb_eq. exact Hs.
    + apply Forall_rev. eapply Forall_impl; [| exact Ha].
      intros s' H Heq. apply Js_eqb_eq in Heq. congruence.
  - intros [before [after [-> [Hs Hafter]]]].
    exists (rev after), (rev before). split; [| split].
    + rewrite rev_app_distr. simpl. rewrite <- app_assoc. reflexivity.
    + apply Js_eqb_eq. exact Hs.
    + apply Forall_rev. eapply Forall_impl; [| exact Hafter].
      intros s' H. destruct (Js.eqb (Interceptors.server_id s') key) eqn:E;
        [| reflexivity].
      apply Js_eqb_eq in E. contradiction.
Qed.

Lemma find_over_app {A : Type} (f : A -> bool) (a b : list A) :
  find f (a ++ b)
  = match find f a with Some x => Some x | None => find f b end.
Proof.
  induction a as [|y a IH]; simpl; [reflexivity |].
  destruct (f y); [reflexivity | exact IH].
Qed.

(** Elements with another id do not matter to what is read under a
    key. *)
Lemma keyBy_filter (array : list Interceptors.ServerInterceptor)
    (key : Js.str) :
  Interceptors.keyBy
    (filter (fun s => Js.eqb (Interceptors.server_id s) key) array) key
  = Interceptors.keyBy array key.
Proof.
  unfold Interceptors.keyBy.
  induction array as [|s array IH]; simpl; [reflexivity |].
  destruct (Js.eqb (Interceptors.server_id s) key) eqn:E; simpl.
  - rewrite !find_over_app, IH.
    destruct (find (fun s0 => Js.eqb (Interceptors.server_id s0) key)
                (rev array)); [reflexivity |].
    simpl. rewrite E. reflexivity.
  - rewrite find_over_app, IH.
    destruct (find (fun s0 => Js.eqb (Interceptors.server_id s0) key)
                (rev array)); [reflexivity |].
    simpl. rewrite E. reflexivity.
Qed.

(** X16. What one option resolves to. The entry keeps the option and
    takes the key as its id. It is supported exactly when the option is
    client-only or the server has an interceptor under the key, and the
    requirements of the option, if it has any, hold. An unsupported entry
    is neither active nor activable and has no version and no activation
    options; a supported client-only one is activable and not active; any
    other supported one has the version of the server's interceptor and
    is active and activable as the server says. In every case the two
    flags are defined. *)
Theorem resolveOption_outcome
    (serverInterceptors : Js.str -> option Interceptors.ServerInterceptor)
    (accountStore : Interceptors.AccountStore)
    (serverVersion : option Js.str)
    (option : Interceptors.InterceptorConfig) (id : Js.str) :
  let r := Interceptors.resolveOption serverInterceptors accountStore
             serverVersion option id in
  Interceptors.config r = option
  /\ Interceptors.id r = id
  /\ (Interceptors.isSupported r = true
      <-> (Interceptors.clientOnly option = true
           \/ exists s, serverInterceptors id = Some s)
          /\ match Interceptors.checkRequirements option with
             | Some check =>
                 check
                   {| Interceptors.interceptorVersion :=
                        option_map Interceptors.server_version
                          (serverInterceptors id);
                      Interceptors.req_accountStore := accountStore;
                      Interceptors.req_serverVersion := serverVersion |}
                 = true
             | None => True
             end)
  /\ if Interceptors.isSupported r
     then
       if Interceptors.clientOnly option
       then Interceptors.isActive r = Some false
            /\ Interceptors.isActivable r = Some true
            /\ Interceptors.version r = None
       else exists s,
              serverInterceptors id = Some s
              /\ Interceptors.isActive r
                 = Some (Interceptors.server_isActive s)
              /\ Interceptors.isActivable r
                 = Some (Interceptors.server_isActivable s)
              /\ Interceptors.version r
                 = Some (Interceptors.server_version s)
     else Interceptors.isActive r = Some false
          /\ Interceptors.isActivable r = Some false
          /\ Interceptors.version r = None
          /\ Interceptors.activationOptions r = None.
Proof.
  cbv zeta. unfold Interceptors.resolveOption.
  destruct (Interceptors.clientOnly option) eqn:Hclient;
    destruct (serverInterceptors id) as [s|] eqn:Hserver;
    destruct (Interceptors.checkRequirements option) as [check|] eqn:Hcheck;
    simpl;
    try match goal with
        | |- context [check ?r] => destruct (check r) eqn:Hreq; simpl
        end;
    (split; [reflexivity |]); (split; [reflexivity |]);
    split.
  all: try (split;
            [ intros H;
              first [ discriminate H
                    | split;
                      [ first [left; reflexivity
                              | right; eexists; reflexivity]
                      | first [exact I | reflexivity] ] ]
            | intros [[H | [s' H]] Hr]; congruence ]).
  all: try (repeat split; reflexivity).
  all: eexists; repeat split; reflexivity.
Qed.

Section Electron.

Variable versionSatisfies : option Js.str -> Js.str -> bool.

(** X17. Whatever the server reports, [getInterceptOptions] returns the
    one option the UI has, under its key and with that id. When the
    server reports an interceptor with the id ['electron'], the last one
    it reports with that id decides: if its version satisfies [^1.0.1]
    the option is supported, and active and activable as that one says;
    if not, the option is unsupported, not active and not activable. When
    the server reports none with that id, the option is unsupported, not
    active and not activable. *)
Theorem getInterceptOptions_electron
    (serverInterceptorArray : list Interceptors.ServerInterceptor)
    (accountStore : Interceptors.AccountStore)
    (serverVersion : option Js.str) :
  exists r,
    Interceptors.getInterceptOptions versionSatisfies
      serverInterceptorArray accountStore serverVersion
    = [(Js.lit "electron", r)]
    /\ Interceptors.id r = Js.lit "electron"
    /\ (forall before s after,
          serverInterceptorArray = before ++ s :: after ->
          Interceptors.server_id s = Js.lit "electron" ->
          Forall (fun s' => Interceptors.server_id s' <> Js.lit "electron")
            after ->
          if versionSatisfies (Some (Interceptors.server_version s))
               (Js.lit "^1.0.1")
          then Interceptors.isSupported r = true
               /\ Interceptors.isActive r
                  = Some (Interceptors.server_isActive s)
               /\ Interceptors.isActivable r
                  = Some (Interceptors.server_isActivable s)
          else Interceptors.isSupported r = false
               /\ Interceptors.isActive r = Some false
               /\ Interceptors.isActivable r = Some false)
    /\ (Forall (fun s => Interceptors.server_id s <> Js.lit "electron")
          serverInterceptorArray ->
        Interceptors.isSupported r = false
        /\ Interceptors.isActive r = Some false
        /\ Interceptors.isActivable r = Some false).
Proof.
  unfold Interceptors.getInterceptOptions, Interceptors.INTERCEPT_OPTIONS,
    Interceptors.mapValues.
  simpl List.map. eexists. split; [reflexivity |].
  unfold Interceptors.resolveOption. simpl Interceptors.clientOnly.
  simpl Interceptors.checkRequirements. cbv beta iota.
  simpl Interceptors.getActivationOptions. simpl negb at 1.
  destruct (Interceptors.keyBy serverInterceptorArray (Js.lit "electron"))
    as [s|] eqn:Hkey.
  - simpl Js.defined. simpl option_map. simpl Interceptors.interceptorVersion.
    simpl negb at 1. simpl andb. simpl orb.
    split; [destruct (versionSatisfies _ _); reflexivity |].
    split.
    + intros before s' after Harr Hid Hafter.
      assert (Hs' : Interceptors.keyBy serverInterceptorArray
                      (Js.lit "electron") = Some s')
        by (apply keyBy_last; eauto).
      assert (s' = s) by congruence. subst s'.
      destruct (versionSatisfies (Some (Interceptors.server_version s))
                  (Js.lit "^1.0.1")); simpl; auto.
    + intros Hnone. apply keyBy_last in Hkey.
      destruct Hkey as [before [after [Harr [Hid _]]]].
      rewrite Forall_forall in Hnone. exfalso.
      apply (Hnone s); [| exact Hid].
      rewrite Harr. apply in_elt.
  - simpl. split; [reflexivity |]. split; [| auto].
    intros before s after Harr Hid Hafter.
    assert (Hs : Interceptors.keyBy serverInterceptorArray
                   (Js.lit "electron") = Some s)
      by (apply keyBy_last; eauto).
    congruence.
Qed.

(** X18. Interceptors the server reports under ids the UI has no option
    for change nothing: the result is the one for the reported
    interceptors with the id ['electron'] alone. *)
Theorem getInterceptOptions_ignores_unknown
    (serverInterceptorArray : list Interceptors.ServerInterceptor)
    (accountStore : Interceptors.AccountStore)
    (serverVersion : option Js.str) :
  Interceptors.getInterceptOptions versionSatisfies
    (filter (fun s => Js.eqb (Interceptors.server_id s) (Js.lit "electron"))
       serverInterceptorArray)
    accountStore serverVersion
  = Interceptors.getInterceptOptions versionSatisfies
      serverInterceptorArray accountStore serverVersion.
Proof.
  unfold Interceptors.getInterceptOptions, Interceptors.INTERCEPT_OPTIONS,
    Interceptors.mapValues.
  simpl List.map. unfold Interceptors.resolveOption.
  rewrite keyBy_filter. reflexivity.
Qed.

End Electron.

(* ================================================================== *)
(** ** The sidebar                                                     *)
(* ================================================================== *)

Lemma Sidebar_components_items (l : list (Sidebar.Position * Sidebar.Component)) :
  Sidebar.components (List.map (fun i => Sidebar.Item (snd i)) l)
  = List.map snd l.
Proof.
  induction l as [|i l IH]; simpl; [reflexivity | rewrite IH; reflexivity].
Qed.

Lemma Sidebar_components_app (a b : list Sidebar.Child) :
  Sidebar.components (a ++ b) = Sidebar.components a ++ Sidebar.components b.
Proof.
  induction a as [|[| c |] a IH]; simpl; rewrite ?IH; reflexivity.
Qed.

Lemma Sidebar_above_items (l : list (Sidebar.Position * Sidebar.Component))
    (rest : list Sidebar.Child) :
  Sidebar.above
    (List.map (fun i => Sidebar.Item (snd i)) l ++ Sidebar.Separator :: rest)
  = List.map snd l.
Proof.
  induction l as [|i l IH]; simpl; [reflexivity | rewrite IH; reflexivity].
Qed.

Lemma Sidebar_below_items (l : list (Sidebar.Position * Sidebar.Component))
    (rest : list Sidebar.Child) :
  Sidebar.below
    (List.map (fun i => Sidebar.Item (snd i)) l ++ Sidebar.Separator :: rest)
  = Sidebar.components rest.
Proof.
  induction l as [|i l IH]; simpl; [reflexivity | exact IH].
Qed.

(** The elements that pass a test and those that fail it are all the
    elements. *)
Lemma filter_partition_Permutation {A : Type} (f g : A -> bool)
    (l : list A) :
  (forall a, g a = negb (f a)) ->
  Permutation (filter f l ++ filter g l) l.
Proof.
  intros Hg. induction l as [|a l IH]; simpl; [constructor |].
  rewrite Hg. destruct (f a); simpl.
  - constructor. exact IH.
  - apply Permutation_sym. apply Permutation_cons_app.
    apply Permutation_sym. exact IH.
Qed.

(** X19. The sidebar shows every item once: the items positioned at the
    top above the separator, in the order they were given, those
    positioned at the bottom below it, in the order they were given, and
    nothing else but the logo. (The title of the logo, built from the
    service versions, is not modelled.) *)
Theorem sidebar_shows_every_item_once (items : list Sidebar.SidebarItem) :
  let children := Sidebar.sidebar items in
  let shown (at_ : Sidebar.Position) :=
    List.map (fun item => snd (Sidebar.itemComponent item))
      (filter (fun item => Sidebar.positionEqb (Sidebar.position item) at_)
         items) in
  Sidebar.above children = shown Sidebar.top
  /\ Sidebar.below children = shown Sidebar.bottom
  /\ Permutation (Sidebar.components children)
       (List.map (fun item => snd (Sidebar.itemComponent item)) items)
  /\ length children = length items + 2.
Proof.
  cbv zeta. unfold Sidebar.sidebar. cbv zeta.
  assert (Hfilter : forall at_,
             List.map snd
               (filter (fun i => Sidebar.positionEqb (fst i) at_)
                  (List.map Sidebar.itemComponent items))
             = List.map (fun item => snd (Sidebar.itemComponent item))
                 (filter (fun item =>
                            Sidebar.positionEqb (Sidebar.position item) at_)
                    items)).
  { intros at_. induction items as [|item items IH]; simpl; [reflexivity |].
    assert (Hpos : fst (Sidebar.itemComponent item) = Sidebar.position item)
      by (unfold Sidebar.itemComponent; destruct (Sidebar.type item);
          reflexivity).
    rewrite Hpos.
    destruct (Sidebar.positionEqb (Sidebar.position item) at_); simpl;
      rewrite IH; reflexivity. }
  split; [| split; [| split]].
  - simpl. rewrite Sidebar_above_items. apply Hfilter.
  - simpl. rewrite Sidebar_below_items, Sidebar_components_items.
    apply Hfilter.
  - simpl. rewrite Sidebar_components_app. simpl.
    rewrite !Sidebar_components_items.
    rewrite <- (map_map Sidebar.itemComponent snd items).
    rewrite <- map_app. apply Permutation_map.
    apply filter_partition_Permutation.
    intros [[] c]; reflexivity.
  - simpl. rewrite length_app. simpl. rewrite !length_map.
    pose proof (filter_partition_Permutation
                  (fun i => Sidebar.positionEqb (fst i) Sidebar.top)
                  (fun i => Sidebar.positionEqb (fst i) Sidebar.bottom)
                  (List.map Sidebar.itemComponent items)) as Hperm.
    assert (Hlen := Permutation_length
                      (Hperm (fun i => match i with
                                       | (Sidebar.top, _) => eq_refl
                                       | (Sidebar.bottom, _) => eq_refl
                                       end))).
    rewrite length_app, length_map in Hlen. lia.
Qed.

(* ================================================================== *)
(** ** More statements at sample panes                                 *)
(* ================================================================== *)

(** With the response body expanded, no props but its own say expanded
    and none say collapsed, the api card's neither, collapsed as its
    state is. *)
Lemma cardProps_expanded_exclusive_sample :
  let p := Sample.expandedPane Expandable.responseBody Sample.completed in
  UiStore.collapsed (UiStore.viewCardStates (uiStore p) CardKey.api) = true
  /\ expanded (cardProps p CardKey.responseBody) = true
  /\ (expanded (cardProps p CardKey.api) = true
      <-> CardKey.api = CardKey.responseBody)
  /\ collapsed (cardProps p CardKey.api) = false.
Proof.
  cbv zeta. split; [reflexivity |]. split; [reflexivity |].
  apply (@cardProps_expanded_exclusive
           (Sample.expandedPane Expandable.responseBody Sample.completed)
           CardKey.responseBody CardKey.api).
  reflexivity.
Defined.

(** A session: a card collapsed, expanded, a collapse under a name that
    is no card key, a frame, the error ignored, another card expanded. *)
Lemma run_keeps_expanded_card_not_collapsed_sample :
  ExpandedNotCollapsed
    (run [Invoke (ToggleCollapse (Js.lit "requestBody"));
          Invoke (ToggleExpand CardKey.requestBody);
          Invoke (ToggleCollapse (Js.lit "timeline"));
          AnimationFrame;
          IgnoreError;
          Invoke (ToggleExpand CardKey.responseBody)]
       (Sample.pane Sample.completed)).
Proof.
  apply run_keeps_expanded_card_not_collapsed.
  intros e H. simpl in H. discriminate H.
Defined.

Lemma run_keeps_completion_scheduled_sample :
  let p := run [Invoke (ToggleExpand CardKey.requestBody);
                Invoke (ToggleExpand CardKey.responseBody);
                Invoke (ToggleCollapse (Js.lit "request"))]
             (Sample.pane Sample.completed) in
  CompletionScheduled p
  /\ expandCompleted (animationFrame p) = true
  /\ animationFrames (animationFrame p) = [].
Proof.
  cbv zeta. apply run_keeps_completion_scheduled.
  intros H. simpl in H. discriminate H.
Defined.

(** An accepted WebSocket with a response body. *)
Lemma render_normal_panels_sample :
  let x := Sample.webSocket (Js.lit "wss://example.com:8080/chat")
             (HttpExchange.Completed 101) in
  let p := Sample.pane x in
  exists cards,
    render Sample.startCase Sample.tagsToErrorType p
    = ([], Js.Returned
             (OuterContainer
                (renderHeaderCard Sample.tagsToErrorType p (exchange p))
                cards (isPaidUser p)))
    /\ List.map panelName (mounted cards)
       = [Js.lit "request"; Js.lit "response"; Js.lit "responseBody";
          Js.lit "webSocketMessages"].
Proof.
  cbv zeta.
  apply (@render_normal_panels Sample.startCase _ Sample.tagsToErrorType
           (Sample.pane
              (Sample.webSocket (Js.lit "wss://example.com:8080/chat")
                 (HttpExchange.Completed 101)))).
  - split; reflexivity.
  - reflexivity.
  - intros _. vm_compute. lia.
Defined.

(** A WebSocket held at a request breakpoint, its URL of one segment. *)
Lemma render_breakpoint_panels_sample :
  let p := Sample.pane Sample.atRequestBreakpoint in
  urlSegments (exchange p) < 3
  /\ HttpExchange.hasRequestBody (exchange p) = false
  /\ exists cards,
       render Sample.startCase Sample.tagsToErrorType p
       = ([], Js.Returned
                (OuterContainer (Some HttpRequestBreakpointHeader)
                   cards (isPaidUser p)))
       /\ List.map panelName (mounted cards)
          = [Js.lit "request"; Js.lit "requestBody"]
       /\ ~ In (Js.lit "performance") (List.map panelName (mounted cards))
       /\ ~ In (Js.lit "export") (List.map panelName (mounted cards)).
Proof.
  cbv zeta. split; [vm_compute; lia |]. split; [reflexivity |].
  apply (@render_breakpoint_panels Sample.startCase _ Sample.tagsToErrorType
           (Sample.pane Sample.atRequestBreakpoint)); reflexivity.
Defined.

Lemma render_panels_in_card_key_order_sample :
  exists log v,
    render Sample.startCase Sample.tagsToErrorType
      (Sample.pane Sample.documented)
    = (log, Js.Returned v)
    /\ panelOrder v
       = [Js.lit "api"; Js.lit "request"; Js.lit "response";
          Js.lit "responseBody"; Js.lit "divider"; Js.lit "performance";
          Js.lit "export"]
    /\ Subsequence (panelOrder v) canonicalOrder
    /\ NoDup (panelOrder v).
Proof.
  do 2 eexists. split; [reflexivity |]. split; [reflexivity |].
  eapply (@render_panels_in_card_key_order Sample.startCase _
            Sample.tagsToErrorType (Sample.pane Sample.documented)).
  reflexivity.
Defined.

Lemma webSocketMessages_key_follows_exchange_sample :
  let x1 := Sample.webSocket (Js.lit "wss://example.com:8080/chat")
              (HttpExchange.Completed 101) in
  let x2 := HttpExchange.setTags [] Sample.documented in
  exists card1 card2 props1 props2,
    renderWebSocketMessages (Sample.pane x1) x1 = ([], Js.Returned card1)
    /\ renderWebSocketMessages (Sample.pane x2) x1 = ([], Js.Returned card2)
    /\ baseProps card1 = Some props1
    /\ baseProps card2 = Some props2
    /\ key props1 = Js.lit "webSocketMessages-e2"
    /\ (key props1 = key props2 <-> Js.lit "e2" = Js.lit "e4").
Proof.
  cbv zeta.
  apply (@webSocketMessages_key_follows_exchange
           (Sample.pane
              (Sample.webSocket (Js.lit "wss://example.com:8080/chat")
                 (HttpExchange.Completed 101)))
           (Sample.pane (HttpExchange.setTags [] Sample.documented)));
    vm_compute; lia.
Defined.

Lemma webSocketMessages_filenamePrefix_sample :
  let x := Sample.webSocket (Js.lit "wss://example.com:8080/chat")
             (HttpExchange.Completed 101) in
  3 <= urlSegments x
  /\ exists props onExpand paid prefix third domain middle,
       renderWebSocketMessages (Sample.pane x) x
       = ([], Js.Returned (StreamMessageListCard props onExpand paid prefix))
       /\ nth_error (Js.split (HttpExchange.requestUrl x) Js.slash) 2
          = Some third
       /\ (third = domain \/ exists port, third = domain ++ Js.colon :: port)
       /\ ~ In Js.colon domain
       /\ prefix = domain ++ middle ++ Js.lit " - websocket"
       /\ ~ In Js.slash prefix.
Proof.
  cbv zeta. split; [vm_compute; lia |].
  apply (@webSocketMessages_filenamePrefix
           (Sample.pane
              (Sample.webSocket (Js.lit "wss://example.com:8080/chat")
                 (HttpExchange.Completed 101)))).
  vm_compute. lia.
Defined.


Lemma render_after_toggleExpand_sample :
  let p := Sample.pane Sample.completed in
  let p1 := toggleExpand CardKey.responseBody p in
  exists card props,
    render Sample.startCase Sample.tagsToErrorType p1
    = ([], Js.Returned
             (ExpandedContentContainer false
                (renderHeaderCard Sample.tagsToErrorType p (exchange p))
                (Some card)))
    /\ render Sample.startCase Sample.tagsToErrorType (animationFrame p1)
       = ([], Js.Returned
                (ExpandedContentContainer true
                   (renderHeaderCard Sample.tagsToErrorType p (exchange p))
                   (Some card)))
    /\ panelName card = Js.lit "responseBody"
    /\ baseProps card = Some props
    /\ expanded props = true
    /\ collapsed props = false.
Proof.
  cbv zeta.
  apply (@render_after_toggleExpand Sample.startCase _ Sample.tagsToErrorType
           (Sample.pane Sample.completed) Expandable.responseBody).
  - reflexivity.
  - reflexivity.
  - intros H. discriminate H.
Defined.

Lemma render_after_expand_and_back_sample :
  let p := Sample.pane Sample.completed in
  let p2 := toggleExpand CardKey.requestBody
              (toggleExpand CardKey.requestBody p) in
  render Sample.startCase Sample.tagsToErrorType p2
  = render Sample.startCase Sample.tagsToErrorType p
  /\ render Sample.startCase Sample.tagsToErrorType (animationFrame p2)
     = render Sample.startCase Sample.tagsToErrorType p.
Proof.
  cbv zeta.
  apply (@render_after_expand_and_back Sample.startCase _
           Sample.tagsToErrorType (Sample.pane Sample.completed)
           CardKey.requestBody); reflexivity.
Defined.
